(** * FringeStageVote: a shallow embedding of the voting contract

    The development embeds [contracts/FringeStageVote.sol] as executable Rocq
    functions over an explicit contract state, and proves properties of the
    session lifecycle, of the vote aggregation and of the decryption
    handshake. *)

From stdpp Require Import gmap strings list fin_maps fin_sets.

Set Warnings "-clear-no-such-hyp".

Local Open Scope Z_scope.

(** ** Machine integers *)

(** Solidity [address], [uint256], [uint16] and [bytes32] values are integers;
    the bounds of the fixed-width types are written out where the code
    depends on them. *)
Definition address : Type := Z.

Definition UINT256_MAX : Z := 2 ^ 256 - 1.

(** [uint16(x)]: the explicit narrowing conversion keeps the low 16 bits. *)
Definition to_uint16 (x : Z) : Z := x mod 65536.

(** ** The FHE runtime *)

Module FHE.

(** Modelled from the spec: the FHE library [@fhevm/solidity/lib/FHE.sol] is
    an external dependency of the contract, consumed as a capability. A
    ciphertext handle is modelled by the symbolic expression that produced
    it (handles of the runtime are deterministic in the operation and its
    operands), and [decrypt] gives the 16-bit cleartext under a handle: the
    homomorphic addition of two [euint16] adds modulo 2^16. *)
Record externalEuint16 : Type := ExternalEuint16 {
  ext_handle : Z;   (* the handle sent by the client *)
  ext_clear : Z     (* the cleartext the client encrypted under it *)
}.

(** An input proof attests a list of handles. *)
Definition inputProof : Type := list Z.

Inductive euint16 : Type :=
| Uninitialized                          (* the zero handle of unset storage *)
| Trivial (value : Z)                    (* [FHE.asEuint16(value)] *)
| FromExternal (input : externalEuint16) (* a verified client input *)
| Add (lhs rhs : euint16).               (* [FHE.add(lhs, rhs)] *)

Definition isInitialized (e : euint16) : bool :=
  match e with Uninitialized => false | _ => true end.

Definition asEuint16 (value : Z) : euint16 := Trivial value.

Definition verifies (input : externalEuint16) (proof : inputProof) : bool :=
  existsb (Z.eqb (ext_handle input)) proof.

(** [FHE.fromExternal] fails when the proof does not cover the handle. *)
Definition fromExternal (input : externalEuint16) (proof : inputProof)
  : option euint16 :=
  if verifies input proof then Some (FromExternal input) else None.

(** [FHE.add] replaces an uninitialised operand by an encrypted zero. *)
Definition add (a b : euint16) : euint16 :=
  Add (if isInitialized a then a else asEuint16 0)
      (if isInitialized b then b else asEuint16 0).

Fixpoint decrypt (e : euint16) : Z :=
  match e with
  | Uninitialized => 0
  | Trivial v => to_uint16 v
  | FromExternal i => to_uint16 (ext_clear i)
  | Add a b => to_uint16 (decrypt a + decrypt b)
  end.

(** Who may use a handle: the contract itself or an account. *)
Inductive grantee : Type :=
| This
| Account (a : address).

End FHE.

Import FHE.

(** ** Contract data *)

Record Session : Type := mkSession {
  title : string;
  venue : string;
  startTime : Z;
  endTime : Z;
  theaterCompany : address;
  voteCount : Z;
  isActive : bool;
  decryptionRequested : bool;
  decryptionCompleted : bool;
  aggregatedPlotTension : euint16;
  aggregatedPerformance : euint16;
  aggregatedStageDesign : euint16;
  aggregatedPacing : euint16
}.

Record DecryptedResults : Type := mkDecryptedResults {
  totalPlotTension : Z;
  totalPerformance : Z;
  totalStageDesign : Z;
  totalPacing : Z
}.

Definition MIN_VOTES_FOR_DECRYPTION : Z := 1.

Inductive Event : Type :=
| SessionCreated (sessionId : Z) (title venue : string)
                 (startTime endTime : Z) (theaterCompany : address)
| VoteSubmitted (sessionId : Z) (voter : address) (newVoteCount : Z)
| TheaterAuthorized (sessionId : Z) (theaterAddress : address)
| DecryptionRequested (sessionId : Z) (requester : address)
| DecryptionCompleted (sessionId : Z)
                      (avgPlotTension avgPerformance avgStageDesign avgPacing : Z).

Inductive Error : Type :=
| SessionNotFound
| SessionNotActive
| SessionNotEnded
| AlreadyVoted
| UnauthorizedTheater
| InsufficientVotes
| InvalidRatingValue
| DecryptionAlreadyRequested
| OnlyTheaterCompany
| SessionStillActive
| RevertString (reason : string)   (* [revert("...")] *)
| Panic (code : Z)                 (* 0x11 overflow, 0x12 division by zero *)
| InvalidInputProof.               (* raised inside [FHE.fromExternal] *)

(** The state variables of the contract. A [mapping] reads as the zero value
    where nothing was written: [_sessions] and [_decryptedResults] are finite
    maps read through a default, and the two [mapping(uint256 =>
    mapping(address => bool))], which are only ever assigned [true], are the
    finite sets of the keys whose flag is set. [acl] records the permissions
    granted through [FHE.allow] and [FHE.allowThis], and [logs] the events
    emitted. *)
Record State : Type := mkState {
  _nextSessionId : Z;
  _sessions : gmap Z Session;
  _decryptedResults : gmap Z DecryptedResults;
  _hasVoted : gset (Z * address);
  _authorizedTheaters : gset (Z * address);
  acl : list (euint16 * grantee);
  logs : list Event
}.

Definition zeroSession : Session :=
  mkSession "" "" 0 0 0 0 false false false
            Uninitialized Uninitialized Uninitialized Uninitialized.

Definition zeroResults : DecryptedResults := mkDecryptedResults 0 0 0 0.

Definition initialState : State := mkState 0 ∅ ∅ ∅ ∅ [] [].

(** [_sessions[sessionId]] *)
Definition sessionAt (st : State) (sessionId : Z) : Session :=
  default zeroSession (_sessions st !! sessionId).

(** [_decryptedResults[sessionId]] *)
Definition resultsAt (st : State) (sessionId : Z) : DecryptedResults :=
  default zeroResults (_decryptedResults st !! sessionId).

(** ** Execution monad *)

(** The context of a call: [msg.sender] and [block.timestamp]. *)
Record Env : Type := mkEnv {
  msg_sender : address;
  block_timestamp : Z
}.

Inductive result (A : Type) : Type :=
| Ok (a : A)
| Revert (e : Error).
Arguments Ok {A} a.
Arguments Revert {A} e.

(** A call reads the context, threads the state and may revert; a revert
    carries no state, the transaction leaves the state as it found it. *)
Definition M (A : Type) : Type := Env → State → result (A * State).

Definition ret {A} (a : A) : M A := λ _ st, Ok (a, st).

Definition bind {A B} (m : M A) (f : A → M B) : M B :=
  λ env st,
    match m env st with
    | Ok (a, st') => f a env st'
    | Revert e => Revert e
    end.

Declare Scope contract_scope.
Delimit Scope contract_scope with contract.
Notation "'let!' x ':=' m 'in' k" := (bind m (λ x, k))
  (at level 10, x name, m at level 100, k at level 200,
   format "'[v' 'let!'  x  ':='  m  'in' '/' k ']'") : contract_scope.
Notation "m '>>' k" := (bind m (λ _, k))
  (at level 100, k at level 200, right associativity,
   format "'[v' m  '>>' '/' k ']'") : contract_scope.
Local Open Scope contract_scope.

Definition revert {A} (e : Error) : M A := λ _ _, Revert e.

Definition sender : M address := λ env st, Ok (msg_sender env, st).
Definition timestamp : M Z := λ env st, Ok (block_timestamp env, st).
Definition get : M State := λ _ st, Ok (st, st).
Definition modify (f : State → State) : M unit := λ _ st, Ok (tt, f st).

(** [if (c) revert e;] *)
Definition revertIf (c : bool) (e : Error) : M unit :=
  if c then revert e else ret tt.

(** ** State updates *)

Definition setSession (sessionId : Z) (s : Session) (st : State) : State :=
  mkState (_nextSessionId st) (<[sessionId := s]> (_sessions st))
          (_decryptedResults st) (_hasVoted st) (_authorizedTheaters st)
          (acl st) (logs st).

Definition setNextSessionId (n : Z) (st : State) : State :=
  mkState n (_sessions st) (_decryptedResults st) (_hasVoted st)
          (_authorizedTheaters st) (acl st) (logs st).

Definition setResults (sessionId : Z) (r : DecryptedResults) (st : State)
  : State :=
  mkState (_nextSessionId st) (_sessions st)
          (<[sessionId := r]> (_decryptedResults st)) (_hasVoted st)
          (_authorizedTheaters st) (acl st) (logs st).

(** [_hasVoted[sessionId][voter] = true] *)
Definition markVoted (sessionId : Z) (voter : address) (st : State) : State :=
  mkState (_nextSessionId st) (_sessions st) (_decryptedResults st)
          ({[ (sessionId, voter) ]} ∪ _hasVoted st) (_authorizedTheaters st)
          (acl st) (logs st).

(** [_authorizedTheaters[sessionId][theater] = true] *)
Definition markAuthorized (sessionId : Z) (theater : address) (st : State)
  : State :=
  mkState (_nextSessionId st) (_sessions st) (_decryptedResults st)
          (_hasVoted st) ({[ (sessionId, theater) ]} ∪ _authorizedTheaters st)
          (acl st) (logs st).

Definition grant (e : euint16) (g : grantee) (st : State) : State :=
  mkState (_nextSessionId st) (_sessions st) (_decryptedResults st)
          (_hasVoted st) (_authorizedTheaters st)
          (acl st ++ [(e, g)]) (logs st).

Definition addLog (ev : Event) (st : State) : State :=
  mkState (_nextSessionId st) (_sessions st) (_decryptedResults st)
          (_hasVoted st) (_authorizedTheaters st)
          (acl st) (logs st ++ [ev]).

Definition emit (ev : Event) : M unit := modify (addLog ev).
Definition allowThis (e : euint16) : M unit := modify (grant e This).
Definition allow (e : euint16) (a : address) : M unit :=
  modify (grant e (Account a)).

Definition hasVotedFlag (st : State) (sessionId : Z) (voter : address) : bool :=
  bool_decide ((sessionId, voter) ∈ _hasVoted st).

Definition authorizedFlag (st : State) (sessionId : Z) (a : address) : bool :=
  bool_decide ((sessionId, a) ∈ _authorizedTheaters st).

(** The session record with some of its fields assigned. *)
Definition withIsActive (b : bool) (s : Session) : Session :=
  mkSession (title s) (venue s) (startTime s) (endTime s) (theaterCompany s)
            (voteCount s) b (decryptionRequested s) (decryptionCompleted s)
            (aggregatedPlotTension s) (aggregatedPerformance s)
            (aggregatedStageDesign s) (aggregatedPacing s).

Definition withDecryptionRequested (b : bool) (s : Session) : Session :=
  mkSession (title s) (venue s) (startTime s) (endTime s) (theaterCompany s)
            (voteCount s) (isActive s) b (decryptionCompleted s)
            (aggregatedPlotTension s) (aggregatedPerformance s)
            (aggregatedStageDesign s) (aggregatedPacing s).

Definition withDecryptionCompleted (b : bool) (s : Session) : Session :=
  mkSession (title s) (venue s) (startTime s) (endTime s) (theaterCompany s)
            (voteCount s) (isActive s) (decryptionRequested s) b
            (aggregatedPlotTension s) (aggregatedPerformance s)
            (aggregatedStageDesign s) (aggregatedPacing s).

Definition withVoteCount (n : Z) (s : Session) : Session :=
  mkSession (title s) (venue s) (startTime s) (endTime s) (theaterCompany s)
            n (isActive s) (decryptionRequested s) (decryptionCompleted s)
            (aggregatedPlotTension s) (aggregatedPerformance s)
            (aggregatedStageDesign s) (aggregatedPacing s).

Definition withAggregates (p f d c : euint16) (s : Session) : Session :=
  mkSession (title s) (venue s) (startTime s) (endTime s) (theaterCompany s)
            (voteCount s) (isActive s) (decryptionRequested s)
            (decryptionCompleted s) p f d c.

Definition withMetadata (t v : string) (start stop : Z) (company : address)
    (s : Session) : Session :=
  mkSession t v start stop company
            (voteCount s) (isActive s) (decryptionRequested s)
            (decryptionCompleted s)
            (aggregatedPlotTension s) (aggregatedPerformance s)
            (aggregatedStageDesign s) (aggregatedPacing s).

Definition modifySession (sessionId : Z) (f : Session → Session) : M unit :=
  modify (λ st, setSession sessionId (f (sessionAt st sessionId)) st).

(** ** The contract's functions *)

(** [x++] on a [uint256]: checked arithmetic panics on overflow. *)
Definition checkedIncr (x : Z) : M Z :=
  if bool_decide (x = UINT256_MAX) then revert (Panic 17) else ret (x + 1).

(** [a / b] panics on a zero divisor. *)
Definition checkedDiv (a b : Z) : M Z :=
  if bool_decide (b = 0) then revert (Panic 18) else ret (a / b).

(** [voteCount > 0 ? total / uint16(voteCount) : 0] *)
Definition average (total count : Z) : M Z :=
  if bool_decide (0 < count) then checkedDiv total (to_uint16 count) else ret 0.

Definition createSession (title venue : string) (startTime endTime : Z) : M Z :=
  let! st := get in
  let sessionId := _nextSessionId st in
  let! next := checkedIncr sessionId in
  modify (setNextSessionId next) >>
  let! who := sender in
  modifySession sessionId (withMetadata title venue startTime endTime who) >>
  modifySession sessionId (withIsActive true) >>
  modifySession sessionId
    (withAggregates (asEuint16 0) (asEuint16 0) (asEuint16 0) (asEuint16 0)) >>
  let! st := get in
  let session := sessionAt st sessionId in
  allowThis (aggregatedPlotTension session) >>
  allowThis (aggregatedPerformance session) >>
  allowThis (aggregatedStageDesign session) >>
  allowThis (aggregatedPacing session) >>
  modify (markAuthorized sessionId who) >>
  emit (SessionCreated sessionId title venue startTime endTime who) >>
  emit (TheaterAuthorized sessionId who) >>
  ret sessionId.

Definition _validateVote (sessionId : Z) : M unit :=
  let! st := get in
  let session := sessionAt st sessionId in
  revertIf (bool_decide (startTime session = 0)) SessionNotFound >>
  revertIf (negb (isActive session)) SessionNotActive >>
  let! now := timestamp in
  revertIf (bool_decide (now < startTime session)
            || bool_decide (endTime session < now)) SessionNotActive >>
  let! who := sender in
  revertIf (hasVotedFlag st sessionId who) AlreadyVoted.

Definition fromExternal (input : externalEuint16) (proof : inputProof)
  : M euint16 :=
  match FHE.fromExternal input proof with
  | Some e => ret e
  | None => revert InvalidInputProof
  end.

Definition _processVote (sessionId : Z)
    (inputPlotTension : externalEuint16) (proofPlotTension : inputProof)
    (inputPerformance : externalEuint16) (proofPerformance : inputProof)
    (inputStageDesign : externalEuint16) (proofStageDesign : inputProof)
    (inputPacing : externalEuint16) (proofPacing : inputProof) : M unit :=
  let! encryptedPlotTension := fromExternal inputPlotTension proofPlotTension in
  let! encryptedPerformance := fromExternal inputPerformance proofPerformance in
  let! encryptedStageDesign := fromExternal inputStageDesign proofStageDesign in
  let! encryptedPacing := fromExternal inputPacing proofPacing in
  modifySession sessionId (λ session,
    withAggregates
      (FHE.add (aggregatedPlotTension session) encryptedPlotTension)
      (FHE.add (aggregatedPerformance session) encryptedPerformance)
      (FHE.add (aggregatedStageDesign session) encryptedStageDesign)
      (FHE.add (aggregatedPacing session) encryptedPacing)
      session) >>
  let! who := sender in
  modify (markVoted sessionId who) >>
  let! st := get in
  let! count := checkedIncr (voteCount (sessionAt st sessionId)) in
  modifySession sessionId (withVoteCount count) >>
  let! st := get in
  let session := sessionAt st sessionId in
  allowThis (aggregatedPlotTension session) >>
  allowThis (aggregatedPerformance session) >>
  allowThis (aggregatedStageDesign session) >>
  allowThis (aggregatedPacing session).

(** The last argument, the digest of the voter's comment, has no name in the
    source: the body cannot refer to it. *)
Definition submitVote (sessionId : Z)
    (inputPlotTension : externalEuint16) (proofPlotTension : inputProof)
    (inputPerformance : externalEuint16) (proofPerformance : inputProof)
    (inputStageDesign : externalEuint16) (proofStageDesign : inputProof)
    (inputPacing : externalEuint16) (proofPacing : inputProof)
    (commentHash : Z) : M unit :=
  _validateVote sessionId >>
  _processVote sessionId inputPlotTension proofPlotTension
               inputPerformance proofPerformance
               inputStageDesign proofStageDesign
               inputPacing proofPacing >>
  let! st := get in
  let! who := sender in
  emit (VoteSubmitted sessionId who (voteCount (sessionAt st sessionId))).

Definition authorizeTheater (sessionId : Z) (theaterAddress : address)
  : M unit :=
  let! st := get in
  let session := sessionAt st sessionId in
  revertIf (bool_decide (startTime session = 0)) SessionNotFound >>
  let! who := sender in
  revertIf (negb (bool_decide (who = theaterCompany session)))
           OnlyTheaterCompany >>
  modify (markAuthorized sessionId theaterAddress) >>
  allow (aggregatedPlotTension session) theaterAddress >>
  allow (aggregatedPerformance session) theaterAddress >>
  allow (aggregatedStageDesign session) theaterAddress >>
  allow (aggregatedPacing session) theaterAddress >>
  emit (TheaterAuthorized sessionId theaterAddress).

Definition requestDecryption (sessionId : Z) : M unit :=
  let! st := get in
  let session := sessionAt st sessionId in
  revertIf (bool_decide (startTime session = 0)) SessionNotFound >>
  let! who := sender in
  revertIf (negb (authorizedFlag st sessionId who)) UnauthorizedTheater >>
  let! now := timestamp in
  revertIf (isActive session && bool_decide (now ≤ endTime session))
           SessionStillActive >>
  revertIf (bool_decide (voteCount session < MIN_VOTES_FOR_DECRYPTION))
           InsufficientVotes >>
  revertIf (decryptionRequested session) DecryptionAlreadyRequested >>
  modifySession sessionId (withDecryptionRequested true) >>
  allow (aggregatedPlotTension session) who >>
  allow (aggregatedPerformance session) who >>
  allow (aggregatedStageDesign session) who >>
  allow (aggregatedPacing session) who >>
  emit (DecryptionRequested sessionId who).

Definition endSession (sessionId : Z) : M unit :=
  let! st := get in
  let session := sessionAt st sessionId in
  revertIf (bool_decide (startTime session = 0)) SessionNotFound >>
  let! who := sender in
  revertIf (negb (bool_decide (who = theaterCompany session)))
           OnlyTheaterCompany >>
  modifySession sessionId (withIsActive false).

Definition hasVoted (sessionId : Z) (voter : address) : M bool :=
  let! st := get in
  ret (hasVotedFlag st sessionId voter).

Definition isAuthorized (sessionId : Z) (theaterAddress : address) : M bool :=
  let! st := get in
  ret (authorizedFlag st sessionId theaterAddress).

Definition getSessionInfo (sessionId : Z)
  : M (string * string * Z * Z * address * Z * bool * bool * bool) :=
  let! st := get in
  let session := sessionAt st sessionId in
  revertIf (bool_decide (startTime session = 0)) SessionNotFound >>
  ret (title session, venue session, startTime session, endTime session,
       theaterCompany session, voteCount session, isActive session,
       decryptionRequested session, decryptionCompleted session).

Definition getEncryptedAggregates (sessionId : Z)
  : M (euint16 * euint16 * euint16 * euint16) :=
  let! st := get in
  let session := sessionAt st sessionId in
  revertIf (bool_decide (startTime session = 0)) SessionNotFound >>
  ret (aggregatedPlotTension session, aggregatedPerformance session,
       aggregatedStageDesign session, aggregatedPacing session).

Definition getTotalSessions : M Z :=
  let! st := get in
  ret (_nextSessionId st).

Definition storeDecryptedResults (sessionId : Z)
    (totalPlotTension totalPerformance totalStageDesign totalPacing : Z)
  : M unit :=
  let! st := get in
  let session := sessionAt st sessionId in
  revertIf (bool_decide (startTime session = 0)) SessionNotFound >>
  let! who := sender in
  revertIf (negb (authorizedFlag st sessionId who)) UnauthorizedTheater >>
  revertIf (negb (decryptionRequested session))
           (RevertString "Decryption not requested") >>
  revertIf (decryptionCompleted session)
           (RevertString "Results already stored") >>
  modify (setResults sessionId
            (mkDecryptedResults totalPlotTension totalPerformance
                                totalStageDesign totalPacing)) >>
  modifySession sessionId (withDecryptionCompleted true) >>
  let! st := get in
  let voteCount := voteCount (sessionAt st sessionId) in
  let! avgPlotTension := average totalPlotTension voteCount in
  let! avgPerformance := average totalPerformance voteCount in
  let! avgStageDesign := average totalStageDesign voteCount in
  let! avgPacing := average totalPacing voteCount in
  emit (DecryptionCompleted sessionId avgPlotTension avgPerformance
                            avgStageDesign avgPacing).

(** What [getDecryptedResults] returns. *)
Record ResultsView : Type := mkResultsView {
  viewTotalPlotTension : Z;
  viewTotalPerformance : Z;
  viewTotalStageDesign : Z;
  viewTotalPacing : Z;
  avgPlotTension : Z;
  avgPerformance : Z;
  avgStageDesign : Z;
  avgPacing : Z;
  viewVoteCount : Z
}.

Definition getDecryptedResults (sessionId : Z) : M ResultsView :=
  let! st := get in
  let session := sessionAt st sessionId in
  revertIf (bool_decide (startTime session = 0)) SessionNotFound >>
  revertIf (negb (decryptionCompleted session))
           (RevertString "Results not yet decrypted") >>
  let results := resultsAt st sessionId in
  let voteCount := voteCount session in
  let! avgPlotTension := average (totalPlotTension results) voteCount in
  let! avgPerformance := average (totalPerformance results) voteCount in
  let! avgStageDesign := average (totalStageDesign results) voteCount in
  let! avgPacing := average (totalPacing results) voteCount in
  ret (mkResultsView (totalPlotTension results) (totalPerformance results)
                     (totalStageDesign results) (totalPacing results)
                     avgPlotTension avgPerformance avgStageDesign avgPacing
                     voteCount).

(** ** Transactions *)

Inductive Call : Type :=
| CreateSession (title venue : string) (startTime endTime : Z)
| SubmitVote (sessionId : Z)
    (inputPlotTension : externalEuint16) (proofPlotTension : inputProof)
    (inputPerformance : externalEuint16) (proofPerformance : inputProof)
    (inputStageDesign : externalEuint16) (proofStageDesign : inputProof)
    (inputPacing : externalEuint16) (proofPacing : inputProof)
    (commentHash : Z)
| AuthorizeTheater (sessionId : Z) (theaterAddress : address)
| RequestDecryption (sessionId : Z)
| EndSession (sessionId : Z)
| StoreDecryptedResults (sessionId : Z)
    (totalPlotTension totalPerformance totalStageDesign totalPacing : Z).

Record Tx : Type := mkTx {
  tx_env : Env;
  tx_call : Call
}.

(** The state a call leaves, when it does not revert. *)
Definition exec {A} (m : M A) (env : Env) (st : State) : result State :=
  match m env st with
  | Ok (_, st') => Ok st'
  | Revert e => Revert e
  end.

Definition dispatch (c : Call) (env : Env) (st : State) : result State :=
  match c with
  | CreateSession t v s e => exec (createSession t v s e) env st
  | SubmitVote id i1 p1 i2 p2 i3 p3 i4 p4 h =>
      exec (submitVote id i1 p1 i2 p2 i3 p3 i4 p4 h) env st
  | AuthorizeTheater id a => exec (authorizeTheater id a) env st
  | RequestDecryption id => exec (requestDecryption id) env st
  | EndSession id => exec (endSession id) env st
  | StoreDecryptedResults id a b c d =>
      exec (storeDecryptedResults id a b c d) env st
  end.

(** A transaction is atomic: a revert rolls the state back. *)
Definition applyTx (st : State) (tx : Tx) : State :=
  match dispatch (tx_call tx) (tx_env tx) st with
  | Ok st' => st'
  | Revert _ => st
  end.

Definition run (st : State) (txs : list Tx) : State :=
  fold_left applyTx txs st.

Definition reachable (st : State) : Prop :=
  ∃ txs, st = run initialState txs.

(** ** The calls as guarded updates

    Each call either reverts at one of its guards or leaves one of the
    states below. *)

(** The state after a successful [createSession] by [who]. *)
Definition afterCreate (t v : string) (start stop : Z) (who : address)
    (st : State) : State :=
  let id := _nextSessionId st in
  let s := withAggregates (asEuint16 0) (asEuint16 0) (asEuint16 0)
             (asEuint16 0)
             (withIsActive true
                (withMetadata t v start stop who (sessionAt st id))) in
  mkState (id + 1) (<[id := s]> (_sessions st)) (_decryptedResults st)
          (_hasVoted st) ({[ (id, who) ]} ∪ _authorizedTheaters st)
          (acl st ++ [(asEuint16 0, This); (asEuint16 0, This);
                      (asEuint16 0, This); (asEuint16 0, This)])
          (logs st ++ [SessionCreated id t v start stop who;
                       TheaterAuthorized id who]).

(** The session after a vote adding [e1 .. e4] to the accumulators. *)
Definition votedSession (e1 e2 e3 e4 : euint16) (s : Session) : Session :=
  withVoteCount (voteCount s + 1)
    (withAggregates (FHE.add (aggregatedPlotTension s) e1)
                    (FHE.add (aggregatedPerformance s) e2)
                    (FHE.add (aggregatedStageDesign s) e3)
                    (FHE.add (aggregatedPacing s) e4) s).

(** The state after a successful [submitVote] by [who]. *)
Definition afterVote (id : Z) (who : address) (e1 e2 e3 e4 : euint16)
    (st : State) : State :=
  let s := votedSession e1 e2 e3 e4 (sessionAt st id) in
  mkState (_nextSessionId st) (<[id := s]> (_sessions st))
          (_decryptedResults st)
          ({[ (id, who) ]} ∪ _hasVoted st) (_authorizedTheaters st)
          (acl st ++ [(aggregatedPlotTension s, This);
                      (aggregatedPerformance s, This);
                      (aggregatedStageDesign s, This);
                      (aggregatedPacing s, This)])
          (logs st ++ [VoteSubmitted id who (voteCount s)]).

(** The state after a successful [authorizeTheater]. *)
Definition afterAuthorize (id : Z) (theater : address) (st : State) : State :=
  let s := sessionAt st id in
  mkState (_nextSessionId st) (_sessions st) (_decryptedResults st)
          (_hasVoted st) ({[ (id, theater) ]} ∪ _authorizedTheaters st)
          (acl st ++ [(aggregatedPlotTension s, Account theater);
                      (aggregatedPerformance s, Account theater);
                      (aggregatedStageDesign s, Account theater);
                      (aggregatedPacing s, Account theater)])
          (logs st ++ [TheaterAuthorized id theater]).

(** The state after a successful [requestDecryption] by [who]. *)
Definition afterRequest (id : Z) (who : address) (st : State) : State :=
  let s := sessionAt st id in
  mkState (_nextSessionId st)
          (<[id := withDecryptionRequested true s]> (_sessions st))
          (_decryptedResults st) (_hasVoted st) (_authorizedTheaters st)
          (acl st ++ [(aggregatedPlotTension s, Account who);
                      (aggregatedPerformance s, Account who);
                      (aggregatedStageDesign s, Account who);
                      (aggregatedPacing s, Account who)])
          (logs st ++ [DecryptionRequested id who]).

(** The state after a successful [endSession]. *)
Definition afterEnd (id : Z) (st : State) : State :=
  setSession id (withIsActive false (sessionAt st id)) st.

(** The value of [voteCount > 0 ? total / uint16(voteCount) : 0] when the
    division does not panic, and the counts at which it panics. *)
Definition averageValue (total count : Z) : Z :=
  if bool_decide (0 < count) then total / to_uint16 count else 0.

Definition averagePanics (count : Z) : bool :=
  bool_decide (0 < count) && bool_decide (to_uint16 count = 0).

(** The state after a successful [storeDecryptedResults]. *)
Definition afterStore (id : Z) (a b c d : Z) (st : State) : State :=
  let s := sessionAt st id in
  mkState (_nextSessionId st)
          (<[id := withDecryptionCompleted true s]> (_sessions st))
          (<[id := mkDecryptedResults a b c d]> (_decryptedResults st))
          (_hasVoted st) (_authorizedTheaters st) (acl st)
          (logs st ++ [DecryptionCompleted id
                         (averageValue a (voteCount s))
                         (averageValue b (voteCount s))
                         (averageValue c (voteCount s))
                         (averageValue d (voteCount s))]).

(** ** Invariants of the reachable states *)

(** The addresses whose has-voted flag is set for a session. *)
Definition voters (st : State) (sessionId : Z) : gset address :=
  set_map snd (filter (λ p, p.1 = sessionId) (_hasVoted st)).

(** The ids allocated so far are [0 .. _nextSessionId - 1]. *)
Definition allocated (st : State) (sessionId : Z) : Prop :=
  0 ≤ sessionId < _nextSessionId st.

(** No session record exists at an id that was not allocated. *)
Definition fresh (st : State) : Prop :=
  0 ≤ _nextSessionId st ∧
  ∀ id, ¬ allocated st id → _sessions st !! id = None.

(** [voteCount] counts the has-voted flags of the session. *)
Definition counted (st : State) : Prop :=
  ∀ id, voteCount (sessionAt st id) = Z.of_nat (size (voters st id)).

(** The flags of [_hasVoted] and [_authorizedTheaters] belong to allocated
    sessions. *)
Definition flagged (st : State) : Prop :=
  ∀ id a, (id, a) ∈ _hasVoted st ∨ (id, a) ∈ _authorizedTheaters st →
          allocated st id.

(** The results of a session were stored, and are [r]. *)
Definition stored (id : Z) (r : DecryptedResults) (st : State) : Prop :=
  allocated st id
  ∧ startTime (sessionAt st id) ≠ 0
  ∧ decryptionRequested (sessionAt st id) = true
  ∧ decryptionCompleted (sessionAt st id) = true
  ∧ resultsAt st id = r.

(** ** The ratings behind the accumulators *)

Inductive Dimension : Type :=
| PlotTension
| Performance
| StageDesign
| Pacing.

(** The accumulator of a dimension. *)
Definition aggregate (d : Dimension) (s : Session) : euint16 :=
  match d with
  | PlotTension => aggregatedPlotTension s
  | Performance => aggregatedPerformance s
  | StageDesign => aggregatedStageDesign s
  | Pacing => aggregatedPacing s
  end.

(** The cleartext a [submitVote] call carries in a dimension. *)
Definition rating (d : Dimension) (c : Call) : Z :=
  match c with
  | SubmitVote _ i1 _ i2 _ i3 _ i4 _ _ =>
      ext_clear (match d with
                 | PlotTension => i1
                 | Performance => i2
                 | StageDesign => i3
                 | Pacing => i4
                 end)
  | _ => 0
  end.

(** Whether a transaction is a vote on the session that succeeds. *)
Definition votesOn (sessionId : Z) (st : State) (tx : Tx) : bool :=
  match tx_call tx with
  | SubmitVote id _ _ _ _ _ _ _ _ _ =>
      bool_decide (id = sessionId)
      && match dispatch (tx_call tx) (tx_env tx) st with
         | Ok _ => true
         | Revert _ => false
         end
  | _ => false
  end.

(** The ratings, in one dimension, of the successful votes on a session along
    a history that starts in [st]. *)
Fixpoint ratings (d : Dimension) (sessionId : Z) (st : State) (txs : list Tx)
  : list Z :=
  match txs with
  | [] => []
  | tx :: txs' =>
      (if votesOn sessionId st tx then [rating d (tx_call tx)] else [])
      ++ ratings d sessionId (applyTx st tx) txs'
  end.

Definition sumZ (l : list Z) : Z := foldr Z.add 0 l.

(** ** A sample history

    The scenario of the test suite: one session, three voters. *)

Definition theater : address := 1.
Definition alice : address := 2.
Definition bob : address := 3.
Definition carol : address := 4.

(** A ballot whose four inputs are covered by their proofs. *)
Definition ballot (sessionId plot perf stage pace : Z) : Call :=
  SubmitVote sessionId
    (ExternalEuint16 1 plot) [1] (ExternalEuint16 2 perf) [2]
    (ExternalEuint16 3 stage) [3] (ExternalEuint16 4 pace) [4] 0.

Definition hamlet : Tx :=
  mkTx (mkEnv theater 1000)
       (CreateSession "Hamlet Preview" "Small Theater" 1000 4600).

Definition createdState : State := run initialState [hamlet].

Definition threeVotes : list Tx :=
  [ hamlet;
    mkTx (mkEnv alice 1200) (ballot 0 80 85 75 90);
    mkTx (mkEnv bob 1300) (ballot 0 90 88 82 85);
    mkTx (mkEnv carol 1400) (ballot 0 85 90 88 87) ].

Definition votedState : State := run initialState threeVotes.

(** The creator closes the session and requests the decryption, then stores
    the totals. *)
Definition requesting : list Tx :=
  [ mkTx (mkEnv theater 1450) (EndSession 0);
    mkTx (mkEnv theater 1460) (RequestDecryption 0) ].

Definition storing : Tx :=
  mkTx (mkEnv theater 1470) (StoreDecryptedResults 0 255 263 245 262).

Definition endedState : State :=
  run initialState (threeVotes ++ [mkTx (mkEnv theater 1450) (EndSession 0)]).

Definition requestedState : State :=
  run initialState (threeVotes ++ requesting).

Definition storedState : State := applyTx requestedState storing.

(** Later bob is authorised too. *)
Definition afterStoring : list Tx :=
  [ mkTx (mkEnv theater 1490) (AuthorizeTheater 0 bob) ].

(** The same history, told from the first vote on. *)
Definition aliceVoted : State :=
  applyTx createdState (mkTx (mkEnv alice 1200) (ballot 0 80 85 75 90)).

Definition afterAlice : list Tx :=
  [ mkTx (mkEnv bob 1300) (ballot 0 90 88 82 85);
    mkTx (mkEnv carol 1400) (ballot 0 85 90 88 87);
    mkTx (mkEnv theater 1450) (EndSession 0) ].

(** ** Larger audiences

    [crowd n] are [n] further addresses that each rate the performance 100 in
    every dimension. *)
Definition crowd (n : nat) : list Tx :=
  map (λ i, mkTx (mkEnv (100 + Z.of_nat i) 1200) (ballot 0 100 100 100 100))
      (seq 0 n).

(** A full house of 656. *)
Definition fullHouse : list Tx := hamlet :: crowd 656.

(** A sold-out run: 65537 addresses vote before the session is closed and
    the totals are stored. *)
Definition soldOut : list Tx :=
  hamlet :: crowd (Z.to_nat 65537) ++ requesting ++ [storing].

(** One voter less, up to the request. *)
Definition nearlySoldOut : list Tx :=
  hamlet :: crowd (Z.to_nat 65536) ++ requesting.

(** The session of the sample history is open and the first [n] members of
    the crowd, and nobody else, have voted. *)
Definition house (n : nat) (st : State) : Prop :=
  let s := sessionAt st 0 in
  startTime s = 1000 ∧ endTime s = 4600 ∧ theaterCompany s = theater
  ∧ isActive s = true
  ∧ decryptionRequested s = false ∧ decryptionCompleted s = false
  ∧ voteCount s = Z.of_nat n
  ∧ (0, theater) ∈ _authorizedTheaters st
  ∧ ∀ a, (0, a) ∈ _hasVoted st → 100 ≤ a < 100 + Z.of_nat n.

(** ** Histories *)

(** Whether a transaction is a [createSession] that succeeds. *)
Definition creates (st : State) (tx : Tx) : bool :=
  match tx_call tx with
  | CreateSession _ _ _ _ =>
      match dispatch (tx_call tx) (tx_env tx) st with
      | Ok _ => true
      | Revert _ => false
      end
  | _ => false
  end.

(** The number of sessions created along a history that starts in [st]. *)
Fixpoint creations (st : State) (txs : list Tx) : nat :=
  match txs with
  | [] => 0
  | tx :: txs' =>
      ((if creates st tx then 1 else 0) + creations (applyTx st tx) txs')%nat
  end.

(** The session a call is about; [createSession] is about the id it is going
    to allocate. *)
Definition target (st : State) (c : Call) : Z :=
  match c with
  | CreateSession _ _ _ _ => _nextSessionId st
  | SubmitVote id _ _ _ _ _ _ _ _ _ => id
  | AuthorizeTheater id _ => id
  | RequestDecryption id => id
  | EndSession id => id
  | StoreDecryptedResults id _ _ _ _ => id
  end.

(** The order of the three flags of a session: results are completed only
    after a request, and a request needs a vote. *)
Definition lifecycle (st : State) : Prop :=
  ∀ id, let s := sessionAt st id in
        (decryptionCompleted s = true → decryptionRequested s = true)
        ∧ (decryptionRequested s = true → MIN_VOTES_FOR_DECRYPTION ≤ voteCount s).

(** The creator of every allocated session is authorised for it. *)
Definition creatorAuthorized (st : State) : Prop :=
  ∀ id, allocated st id →
        (id, theaterCompany (sessionAt st id)) ∈ _authorizedTheaters st.

(** ** More of the sample history *)

(** The creator authorises bob after the results are stored. *)
Definition bobAuthorized : State :=
  applyTx storedState (mkTx (mkEnv theater 1490) (AuthorizeTheater 0 bob)).

(** Bob then tries to end the session, which is not his. *)
Definition afterBob : list Tx := [ mkTx (mkEnv bob 1500) (EndSession 0) ].

(** ** Time *)

(** Every transaction of the history is stamped [t] or later, as the blocks
    that follow a block stamped [t] are. *)
Definition notBefore (t : Z) (txs : list Tx) : Prop :=
  Forall (λ tx, t ≤ block_timestamp (tx_env tx)) txs.

(** The session accepts no vote from time [t] on. *)
Definition closedAt (t : Z) (id : Z) (st : State) : Prop :=
  allocated st id
  ∧ (isActive (sessionAt st id) = false ∨ endTime (sessionAt st id) < t).

(** What the votes of a session add up to. *)
Definition tally (s : Session) : Z * euint16 * euint16 * euint16 * euint16 :=
  (voteCount s, aggregatedPlotTension s, aggregatedPerformance s,
   aggregatedStageDesign s, aggregatedPacing s).

(** ** Permissions and events *)

(** The contract may use the current accumulators of every allocated
    session. *)
Definition selfAllowed (st : State) : Prop :=
  ∀ id d, allocated st id → (aggregate d (sessionAt st id), This) ∈ acl st.

Definition isVoteEvent (sessionId : Z) (ev : Event) : bool :=
  match ev with
  | VoteSubmitted id _ _ => bool_decide (id = sessionId)
  | _ => false
  end.

Definition isCreateEvent (ev : Event) : bool :=
  match ev with
  | SessionCreated _ _ _ _ _ _ => true
  | _ => false
  end.

(** The events tell the state: the votes of each session, the sessions, and
    who voted. *)
Definition logged (st : State) : Prop :=
  (∀ id, voteCount (sessionAt st id)
         = Z.of_nat (length (List.filter (isVoteEvent id) (logs st))))
  ∧ _nextSessionId st
    = Z.of_nat (length (List.filter isCreateEvent (logs st)))
  ∧ ∀ id a, (id, a) ∈ _hasVoted st ↔ ∃ n, VoteSubmitted id a n ∈ logs st.

(** ** The session list of the front end *)






(** * Properties *)

(** ** Reading the state after an update *)

Lemma sessionAt_setSession_eq st id s : sessionAt (setSession id s st) id = s.
Proof. unfold sessionAt; simpl. by rewrite lookup_insert_eq. Qed.

Lemma sessionAt_setSession_ne st id id' s :
  id ≠ id' → sessionAt (setSession id s st) id' = sessionAt st id'.
Proof. intros ?. unfold sessionAt; simpl. by rewrite lookup_insert_ne. Qed.

(** ** The calls as guarded updates *)

(** Unfold a call down to its guards. *)
Ltac unfold_call :=
  cbv [createSession submitVote _validateVote _processVote authorizeTheater
       requestDecryption endSession hasVoted isAuthorized getSessionInfo
       getEncryptedAggregates getTotalSessions storeDecryptedResults
       getDecryptedResults bind ret get modify revertIf revert sender
       timestamp emit allowThis allow modifySession checkedIncr checkedDiv
       average fromExternal].

Ltac guard_cases :=
  match goal with
  | |- context [if ?c then _ else _] => destruct c eqn:?
  | |- context [match FHE.fromExternal ?i ?p with _ => _ end] =>
      destruct (FHE.fromExternal i p) eqn:?
  end; cbn beta iota.

(** Reads of a session through the updates that do not touch it. *)
Ltac norm_state :=
  repeat first
    [ rewrite sessionAt_setSession_eq in *
    | progress change (sessionAt (setNextSessionId ?n ?st) ?i)
        with (sessionAt st i) in *
    | progress change (sessionAt (setResults ?j ?r ?st) ?i)
        with (sessionAt st i) in *
    | progress change (sessionAt (markVoted ?j ?a ?st) ?i)
        with (sessionAt st i) in *
    | progress change (sessionAt (markAuthorized ?j ?a ?st) ?i)
        with (sessionAt st i) in *
    | progress change (sessionAt (grant ?e ?g ?st) ?i)
        with (sessionAt st i) in *
    | progress change (sessionAt (addLog ?e ?st) ?i)
        with (sessionAt st i) in * ].

(** Reduce the state updates and the record projections, innermost first. *)
Ltac unfold_updates :=
  cbv [setSession setNextSessionId setResults markVoted markAuthorized grant
       addLog _nextSessionId _sessions _decryptedResults _hasVoted
       _authorizedTheaters acl logs
       withIsActive withDecryptionRequested withDecryptionCompleted
       withVoteCount withAggregates withMetadata votedSession
       title venue startTime endTime theaterCompany voteCount isActive
       decryptionRequested decryptionCompleted aggregatedPlotTension
       aggregatedPerformance aggregatedStageDesign aggregatedPacing].

Ltac post_state :=
  norm_state; unfold_updates;
  rewrite ?insert_insert_eq, <- ?app_assoc; cbn [app]; reflexivity.

Lemma createSession_eq t v start stop env st :
  createSession t v start stop env st =
  if bool_decide (_nextSessionId st = UINT256_MAX) then Revert (Panic 17)
  else Ok (_nextSessionId st, afterCreate t v start stop (msg_sender env) st).
Proof.
  unfold_call. repeat guard_cases; try reflexivity.
  unfold afterCreate. f_equal. f_equal. post_state.
Qed.

Lemma submitVote_eq id i1 p1 i2 p2 i3 p3 i4 p4 h env st :
  submitVote id i1 p1 i2 p2 i3 p3 i4 p4 h env st =
  let s := sessionAt st id in
  let now := block_timestamp env in
  if bool_decide (startTime s = 0) then Revert SessionNotFound
  else if negb (isActive s) then Revert SessionNotActive
  else if bool_decide (now < startTime s) || bool_decide (endTime s < now)
  then Revert SessionNotActive
  else if hasVotedFlag st id (msg_sender env) then Revert AlreadyVoted
  else match FHE.fromExternal i1 p1, FHE.fromExternal i2 p2,
             FHE.fromExternal i3 p3, FHE.fromExternal i4 p4 with
       | Some e1, Some e2, Some e3, Some e4 =>
           if bool_decide (voteCount s = UINT256_MAX) then Revert (Panic 17)
           else Ok (tt, afterVote id (msg_sender env) e1 e2 e3 e4 st)
       | _, _, _, _ => Revert InvalidInputProof
       end.
Proof.
  unfold_call. cbn zeta. repeat guard_cases; try reflexivity.
  all: norm_state; cbn [voteCount withAggregates] in *.
  all: try congruence.
  unfold afterVote, votedSession. f_equal. f_equal. post_state.
Qed.

Lemma authorizeTheater_eq id theater env st :
  authorizeTheater id theater env st =
  let s := sessionAt st id in
  if bool_decide (startTime s = 0) then Revert SessionNotFound
  else if bool_decide (msg_sender env = theaterCompany s)
  then Ok (tt, afterAuthorize id theater st)
  else Revert OnlyTheaterCompany.
Proof.
  unfold_call. cbn zeta. repeat guard_cases; try discriminate; try reflexivity.
  unfold afterAuthorize. f_equal. f_equal. post_state.
Qed.

Lemma requestDecryption_eq id env st :
  requestDecryption id env st =
  let s := sessionAt st id in
  if bool_decide (startTime s = 0) then Revert SessionNotFound
  else if negb (authorizedFlag st id (msg_sender env))
  then Revert UnauthorizedTheater
  else if isActive s && bool_decide (block_timestamp env ≤ endTime s)
  then Revert SessionStillActive
  else if bool_decide (voteCount s < MIN_VOTES_FOR_DECRYPTION)
  then Revert InsufficientVotes
  else if decryptionRequested s then Revert DecryptionAlreadyRequested
  else Ok (tt, afterRequest id (msg_sender env) st).
Proof.
  unfold_call. cbn zeta. repeat guard_cases; try discriminate; try reflexivity.
  unfold afterRequest. f_equal. f_equal. post_state.
Qed.

Lemma endSession_eq id env st :
  endSession id env st =
  let s := sessionAt st id in
  if bool_decide (startTime s = 0) then Revert SessionNotFound
  else if bool_decide (msg_sender env = theaterCompany s)
  then Ok (tt, afterEnd id st)
  else Revert OnlyTheaterCompany.
Proof.
  unfold_call. cbn zeta. repeat guard_cases; try discriminate; reflexivity.
Qed.

Lemma average_eq total count env st :
  average total count env st =
  if averagePanics count then Revert (Panic 18)
  else Ok (averageValue total count, st).
Proof.
  unfold average, averagePanics, averageValue, checkedDiv, ret, revert.
  repeat case_bool_decide; simpl; reflexivity.
Qed.

Lemma storeDecryptedResults_eq id a b c d env st :
  storeDecryptedResults id a b c d env st =
  let s := sessionAt st id in
  if bool_decide (startTime s = 0) then Revert SessionNotFound
  else if negb (authorizedFlag st id (msg_sender env))
  then Revert UnauthorizedTheater
  else if negb (decryptionRequested s)
  then Revert (RevertString "Decryption not requested")
  else if decryptionCompleted s
  then Revert (RevertString "Results already stored")
  else if averagePanics (voteCount s) then Revert (Panic 18)
  else Ok (tt, afterStore id a b c d st).
Proof.
  cbv [storeDecryptedResults bind get revertIf revert ret sender modify
       modifySession emit].
  cbn zeta. repeat guard_cases; try discriminate; try reflexivity.
  all: norm_state; cbn [voteCount withDecryptionCompleted] in *.
  all: repeat (rewrite average_eq;
               match goal with
               | H : averagePanics _ = _ |- _ => rewrite H
               end; cbn beta iota); reflexivity.
Qed.

Lemma getDecryptedResults_eq id env st :
  getDecryptedResults id env st =
  let s := sessionAt st id in
  let r := resultsAt st id in
  if bool_decide (startTime s = 0) then Revert SessionNotFound
  else if negb (decryptionCompleted s)
  then Revert (RevertString "Results not yet decrypted")
  else if averagePanics (voteCount s) then Revert (Panic 18)
  else Ok (mkResultsView (totalPlotTension r) (totalPerformance r)
             (totalStageDesign r) (totalPacing r)
             (averageValue (totalPlotTension r) (voteCount s))
             (averageValue (totalPerformance r) (voteCount s))
             (averageValue (totalStageDesign r) (voteCount s))
             (averageValue (totalPacing r) (voteCount s))
             (voteCount s), st).
Proof.
  cbv [getDecryptedResults bind get revertIf revert ret].
  cbn zeta. repeat guard_cases; try discriminate; try reflexivity.
  all: repeat (rewrite average_eq;
               match goal with
               | H : averagePanics _ = _ |- _ => rewrite H
               end; cbn beta iota); reflexivity.
Qed.

(** ** Reading a session after a call *)

Lemma sessionAt_insert st id id' s :
  default zeroSession (<[id := s]> (_sessions st) !! id') =
  if decide (id = id') then s else sessionAt st id'.
Proof.
  unfold sessionAt. case_decide; subst.
  - by rewrite lookup_insert_eq.
  - by rewrite lookup_insert_ne.
Qed.

Section AfterStates.
Variable st : State.
Variables id id' : Z.

Lemma sessionAt_afterCreate t v start stop who :
  sessionAt (afterCreate t v start stop who st) id' =
  if decide (_nextSessionId st = id')
  then withAggregates (asEuint16 0) (asEuint16 0) (asEuint16 0) (asEuint16 0)
         (withIsActive true
            (withMetadata t v start stop who (sessionAt st id')))
  else sessionAt st id'.
Proof.
  unfold afterCreate, sessionAt at 1; cbn [_sessions]. rewrite sessionAt_insert.
  case_decide; by subst.
Qed.

Lemma sessionAt_afterVote who e1 e2 e3 e4 :
  sessionAt (afterVote id who e1 e2 e3 e4 st) id' =
  if decide (id = id') then votedSession e1 e2 e3 e4 (sessionAt st id')
  else sessionAt st id'.
Proof.
  unfold afterVote, sessionAt at 1; cbn [_sessions]. rewrite sessionAt_insert.
  case_decide; by subst.
Qed.

Lemma sessionAt_afterAuthorize theater :
  sessionAt (afterAuthorize id theater st) id' = sessionAt st id'.
Proof. reflexivity. Qed.

Lemma sessionAt_afterRequest who :
  sessionAt (afterRequest id who st) id' =
  if decide (id = id') then withDecryptionRequested true (sessionAt st id')
  else sessionAt st id'.
Proof.
  unfold afterRequest, sessionAt at 1; cbn [_sessions]. rewrite sessionAt_insert.
  case_decide; by subst.
Qed.

Lemma sessionAt_afterEnd :
  sessionAt (afterEnd id st) id' =
  if decide (id = id') then withIsActive false (sessionAt st id')
  else sessionAt st id'.
Proof.
  unfold afterEnd, setSession, sessionAt at 1; cbn [_sessions]. rewrite sessionAt_insert.
  case_decide; by subst.
Qed.

Lemma sessionAt_afterStore a b c d :
  sessionAt (afterStore id a b c d st) id' =
  if decide (id = id') then withDecryptionCompleted true (sessionAt st id')
  else sessionAt st id'.
Proof.
  unfold afterStore, sessionAt at 1; cbn [_sessions]. rewrite sessionAt_insert.
  case_decide; by subst.
Qed.

End AfterStates.

Ltac after_reads :=
  rewrite ?sessionAt_afterCreate, ?sessionAt_afterVote,
    ?sessionAt_afterAuthorize, ?sessionAt_afterRequest, ?sessionAt_afterEnd,
    ?sessionAt_afterStore in *.

(** Split on whether a call addressed the session that is read. *)
Ltac case_ids :=
  repeat match goal with
  | |- context [decide (?a = ?b)] => destruct (decide (a = b)); [subst|]
  | H : context [decide (?a = ?b)] |- _ => destruct (decide (a = b)); [subst|]
  end.

(** ** One transaction *)

(** The state a transaction leaves, by cases on the call and its guards. *)
Lemma dispatch_eq c env st :
  dispatch c env st =
  match c with
  | CreateSession t v s e =>
      if bool_decide (_nextSessionId st = UINT256_MAX) then Revert (Panic 17)
      else Ok (afterCreate t v s e (msg_sender env) st)
  | SubmitVote id i1 p1 i2 p2 i3 p3 i4 p4 h =>
      match submitVote id i1 p1 i2 p2 i3 p3 i4 p4 h env st with
      | Ok (_, st') => Ok st'
      | Revert e => Revert e
      end
  | AuthorizeTheater id a =>
      match authorizeTheater id a env st with
      | Ok (_, st') => Ok st'
      | Revert e => Revert e
      end
  | RequestDecryption id =>
      match requestDecryption id env st with
      | Ok (_, st') => Ok st'
      | Revert e => Revert e
      end
  | EndSession id =>
      match endSession id env st with
      | Ok (_, st') => Ok st'
      | Revert e => Revert e
      end
  | StoreDecryptedResults id a b c d =>
      match storeDecryptedResults id a b c d env st with
      | Ok (_, st') => Ok st'
      | Revert e => Revert e
      end
  end.
Proof.
  destruct c; unfold dispatch, exec; try reflexivity.
  rewrite createSession_eq. by case_bool_decide.
Qed.

(** The guards that were decided, as propositions. *)
Ltac clean_guards :=
  repeat match goal with
  | H : bool_decide _ = true |- _ => apply bool_decide_eq_true in H
  | H : bool_decide _ = false |- _ => apply bool_decide_eq_false in H
  | H : negb _ = true |- _ => apply negb_true_iff in H
  | H : negb _ = false |- _ => apply negb_false_iff in H
  | H : _ || _ = false |- _ => apply orb_false_iff in H; destruct H
  | H : _ && _ = true |- _ => apply andb_true_iff in H; destruct H
  end.

(** Case analysis on a transaction: one goal per call and outcome, the
    state after the call in the form of the [after...] definitions. *)
Ltac tx_cases tx :=
  let env := fresh "env" in
  let c := fresh "c" in
  destruct tx as [env c];
  unfold applyTx; simpl tx_call; simpl tx_env;
  rewrite dispatch_eq; destruct c;
  rewrite ?submitVote_eq, ?authorizeTheater_eq, ?requestDecryption_eq,
    ?endSession_eq, ?storeDecryptedResults_eq;
  cbn zeta; repeat guard_cases; clean_guards.

Lemma fresh_initial : fresh initialState.
Proof. split; [done|]. intros id _. apply lookup_empty. Qed.

Lemma fresh_allocated st id :
  fresh st → startTime (sessionAt st id) ≠ 0 → allocated st id.
Proof.
  intros [_ Hf] Hs. destruct (decide (allocated st id)) as [|Hn]; [done|].
  unfold sessionAt in Hs. rewrite Hf in Hs by done. done.
Qed.

Lemma fresh_insert st id s n :
  fresh st → 0 ≤ id < n → _nextSessionId st ≤ n →
  0 ≤ n ∧ ∀ id', ¬ (0 ≤ id' < n) → <[id := s]> (_sessions st) !! id' = None.
Proof.
  intros [H0 Hf] Hlt Hle. split; [lia|]. intros id' Hid'.
  rewrite lookup_insert_ne by lia. apply Hf. unfold allocated. lia.
Qed.

Lemma fresh_applyTx st tx : fresh st → fresh (applyTx st tx).
Proof.
  intros Hf. tx_cases tx; try exact Hf.
  all: apply fresh_insert; [exact Hf| |simpl; lia].
  all: cbn [_nextSessionId afterCreate afterVote afterRequest afterEnd
            afterStore setSession].
  all: try (by apply fresh_allocated).
  destruct Hf. lia.
Qed.

Lemma fresh_run st txs : fresh st → fresh (run st txs).
Proof.
  revert st. induction txs as [|tx txs IH]; intros st Hf; [done|].
  apply IH, fresh_applyTx, Hf.
Qed.

Lemma reachable_fresh st : reachable st → fresh st.
Proof. intros [txs ->]. apply fresh_run, fresh_initial. Qed.

Lemma reachable_applyTx st tx : reachable st → reachable (applyTx st tx).
Proof.
  intros [txs ->]. exists (txs ++ [tx]). unfold run. by rewrite fold_left_app.
Qed.

Lemma run_app st txs1 txs2 : run st (txs1 ++ txs2) = run (run st txs1) txs2.
Proof. apply fold_left_app. Qed.

Lemma reachable_run st txs : reachable st → reachable (run st txs).
Proof.
  intros [txs0 ->]. exists (txs0 ++ txs). by rewrite run_app.
Qed.

(** An invariant of every transaction holds in every reachable state. *)
Lemma reachable_ind (P : State → Prop) :
  P initialState →
  (∀ st tx, reachable st → P st → P (applyTx st tx)) →
  ∀ st, reachable st → P st.
Proof.
  intros H0 Hstep st [txs ->].
  induction txs as [|tx txs IH] using rev_ind; [done|].
  rewrite run_app. simpl. apply Hstep; [by eexists|done].
Qed.

(** ** Vote counting *)

Lemma hasVotedFlag_false st id who :
  hasVotedFlag st id who = false → (id, who) ∉ _hasVoted st.
Proof. unfold hasVotedFlag. by intros ?%bool_decide_eq_false. Qed.


Lemma elem_of_voters st id a : a ∈ voters st id ↔ (id, a) ∈ _hasVoted st.
Proof.
  unfold voters. rewrite elem_of_map. split.
  - intros [[id' a'] [-> [Hid Hin]%elem_of_filter]]. simpl in *. by subst.
  - intros Hin. exists (id, a). split; [done|]. by apply elem_of_filter.
Qed.

Lemma elem_of_voters_flag st id a :
  a ∈ voters st id ↔ hasVotedFlag st id a = true.
Proof.
  rewrite elem_of_voters. unfold hasVotedFlag.
  by rewrite bool_decide_eq_true.
Qed.

Lemma voters_afterVote_eq st id who e1 e2 e3 e4 :
  voters (afterVote id who e1 e2 e3 e4 st) id = {[ who ]} ∪ voters st id.
Proof.
  apply set_eq. intros a.
  rewrite elem_of_union, elem_of_singleton, !elem_of_voters.
  unfold afterVote; cbn [_hasVoted].
  rewrite elem_of_union, elem_of_singleton. naive_solver.
Qed.

Lemma voters_afterVote_ne st id id' who e1 e2 e3 e4 :
  id ≠ id' →
  voters (afterVote id who e1 e2 e3 e4 st) id' = voters st id'.
Proof.
  intros Hne. apply set_eq. intros a. rewrite !elem_of_voters.
  unfold afterVote; cbn [_hasVoted].
  rewrite elem_of_union, elem_of_singleton. naive_solver.
Qed.

Lemma size_voters_afterVote st id who e1 e2 e3 e4 :
  hasVotedFlag st id who = false →
  size (voters (afterVote id who e1 e2 e3 e4 st) id) = S (size (voters st id)).
Proof.
  intros Hnew%hasVotedFlag_false. rewrite voters_afterVote_eq.
  rewrite size_union, size_singleton; [done|].
  intros a ->%elem_of_singleton Hin%elem_of_voters. done.
Qed.

Lemma counted_initial : counted initialState.
Proof. intros id. reflexivity. Qed.

Lemma counted_applyTx st tx : counted st → counted (applyTx st tx).
Proof.
  intros Hc id'. tx_cases tx; after_reads; case_ids;
    try match goal with
        | |- _ = Z.of_nat (size (voters _ ?i)) => exact (Hc i)
        end.
  - (* a vote on this session: the caller's flag was not set *)
    rewrite size_voters_afterVote by done.
    unfold votedSession; cbn [voteCount withVoteCount]. rewrite Hc. lia.
  - rewrite voters_afterVote_ne by done. apply Hc.
Qed.

Lemma reachable_counted st : reachable st → counted st.
Proof.
  apply reachable_ind; [apply counted_initial|].
  intros ? ? _. apply counted_applyTx.
Qed.

Lemma reachable_votedState : reachable votedState.
Proof. by exists threeVotes. Qed.

(** What a successful [submitVote] establishes. *)
Lemma submitVote_Ok id i1 p1 i2 p2 i3 p3 i4 p4 h env st st' :
  exec (submitVote id i1 p1 i2 p2 i3 p3 i4 p4 h) env st = Ok st' →
  let s := sessionAt st id in
  startTime s ≠ 0 ∧ isActive s = true
  ∧ startTime s ≤ block_timestamp env ≤ endTime s
  ∧ hasVotedFlag st id (msg_sender env) = false
  ∧ FHE.verifies i1 p1 = true ∧ FHE.verifies i2 p2 = true
  ∧ FHE.verifies i3 p3 = true ∧ FHE.verifies i4 p4 = true
  ∧ st' = afterVote id (msg_sender env) (FromExternal i1) (FromExternal i2)
                    (FromExternal i3) (FromExternal i4) st.
Proof.
  unfold exec. rewrite submitVote_eq. cbn zeta. unfold FHE.fromExternal.
  repeat guard_cases; intros; simplify_eq. clean_guards.
  repeat split; try done; lia.
Qed.

(** C4: in every reachable state the [voteCount] of every session is the
    number of addresses whose has-voted flag is set for that session, and a
    successful [submitVote] adds one to [voteCount] and sets the flag of the
    caller, which was not set before. *)
Theorem voteCount_counts_voters st :
  reachable st →
  (∀ id, voteCount (sessionAt st id) = Z.of_nat (size (voters st id)))
  ∧ (∀ id a, a ∈ voters st id ↔ hasVotedFlag st id a = true)
  ∧ (∀ id i1 p1 i2 p2 i3 p3 i4 p4 h env st',
       exec (submitVote id i1 p1 i2 p2 i3 p3 i4 p4 h) env st = Ok st' →
       voteCount (sessionAt st' id) = voteCount (sessionAt st id) + 1
       ∧ hasVotedFlag st id (msg_sender env) = false
       ∧ hasVotedFlag st' id (msg_sender env) = true
       ∧ voters st' id = {[ msg_sender env ]} ∪ voters st id).
Proof.
  intros Hr. split; [exact (reachable_counted st Hr)|].
  split; [intros; apply elem_of_voters_flag|].
  intros id i1 p1 i2 p2 i3 p3 i4 p4 h env st' Hok.
  apply submitVote_Ok in Hok as (_ & _ & _ & Hnew & _ & _ & _ & _ & ->).
  rewrite sessionAt_afterVote, decide_True by done.
  repeat split; [done| |apply voters_afterVote_eq].
  apply elem_of_voters_flag. rewrite voters_afterVote_eq. set_solver.
Qed.

Lemma voteCount_counts_voters_witness :
  let dave := mkTx (mkEnv 5 1500) (ballot 0 70 60 50 40) in
  voteCount (sessionAt votedState 0) = Z.of_nat (size (voters votedState 0))
  ∧ voteCount (sessionAt (applyTx votedState dave) 0) =
    voteCount (sessionAt votedState 0) + 1.
Proof.
  intros dave.
  destruct (voteCount_counts_voters votedState) as (Hcount & _ & Hvote).
  - by exists threeVotes.
  - split; [apply Hcount|].
    apply (Hvote 0 (ExternalEuint16 1 70) [1] (ExternalEuint16 2 60) [2]
                 (ExternalEuint16 3 50) [3] (ExternalEuint16 4 40) [4] 0
                 (mkEnv 5 1500) (applyTx votedState dave)).
    vm_compute. reflexivity.
Defined.

(** ** Ending a session *)

Lemma afterEnd_afterEnd id st : afterEnd id (afterEnd id st) = afterEnd id st.
Proof.
  unfold afterEnd at 1 3. rewrite sessionAt_afterEnd, decide_True by done.
  unfold afterEnd, setSession; cbn [_nextSessionId _sessions _decryptedResults
    _hasVoted _authorizedTheaters acl logs].
  by rewrite insert_insert_eq.
Qed.

Lemma endSession_Ok id env st st' :
  exec (endSession id) env st = Ok st' ↔
  startTime (sessionAt st id) ≠ 0
  ∧ msg_sender env = theaterCompany (sessionAt st id)
  ∧ st' = afterEnd id st.
Proof.
  unfold exec. rewrite endSession_eq. cbn zeta.
  repeat case_bool_decide; naive_solver.
Qed.

(** C8: [endSession] succeeds exactly for the creator of an existing session,
    whatever the time and whatever [isActive] was; it sets [isActive] to false
    and changes nothing else; a second call by the creator succeeds too and
    leaves the whole state as the first call left it. *)
Theorem endSession_idempotent id env st st' :
  exec (endSession id) env st = Ok st' →
  msg_sender env = theaterCompany (sessionAt st id)
  ∧ st' = setSession id (withIsActive false (sessionAt st id)) st
  ∧ isActive (sessionAt st' id) = false
  ∧ (∀ now, exec (endSession id) (mkEnv (msg_sender env) now) st = Ok st')
  ∧ (∀ now, exec (endSession id) (mkEnv (msg_sender env) now) st' = Ok st').
Proof.
  intros (Hex & Hwho & ->)%endSession_Ok.
  split; [done|]. split; [done|]. split.
  { by rewrite sessionAt_afterEnd, decide_True. }
  split; intros now; apply endSession_Ok; cbn [msg_sender].
  - done.
  - rewrite sessionAt_afterEnd, decide_True by done.
    by rewrite afterEnd_afterEnd.
Qed.

Lemma endSession_idempotent_witness :
  let env := mkEnv theater 1500 in
  let ended := applyTx votedState (mkTx env (EndSession 0)) in
  isActive (sessionAt votedState 0) = true
  ∧ isActive (sessionAt ended 0) = false
  ∧ exec (endSession 0) (mkEnv theater 9999) ended = Ok ended.
Proof.
  intros env ended.
  destruct (endSession_idempotent 0 env votedState ended)
    as (_ & _ & Hoff & _ & Hagain).
  - vm_compute. reflexivity.
  - split; [vm_compute; reflexivity|]. split; [exact Hoff|].
    exact (Hagain 9999).
Defined.

(** ** What no transaction changes *)

Lemma allocated_applyTx st tx id : allocated st id → allocated (applyTx st tx) id.
Proof.
  unfold allocated. intros Ha. tx_cases tx; try exact Ha.
  cbn [afterCreate _nextSessionId]. lia.
Qed.

(** The metadata of an allocated session is never overwritten. *)
Lemma metadata_applyTx st tx id :
  allocated st id →
  let s := sessionAt st id in
  let s' := sessionAt (applyTx st tx) id in
  startTime s' = startTime s ∧ endTime s' = endTime s
  ∧ theaterCompany s' = theaterCompany s.
Proof.
  unfold allocated. intros Ha. cbn zeta.
  tx_cases tx; after_reads; case_ids; try done. lia.
Qed.

Lemma hasVoted_applyTx st tx id a :
  (id, a) ∈ _hasVoted st → (id, a) ∈ _hasVoted (applyTx st tx).
Proof.
  intros Hin. tx_cases tx; try exact Hin.
  unfold afterVote; cbn [_hasVoted]. set_solver.
Qed.

Lemma authorized_applyTx st tx id a :
  (id, a) ∈ _authorizedTheaters st → (id, a) ∈ _authorizedTheaters (applyTx st tx).
Proof.
  intros Hin. tx_cases tx; try exact Hin.
  - unfold afterCreate; cbn [_authorizedTheaters]. set_solver.
  - unfold afterAuthorize; cbn [_authorizedTheaters]. set_solver.
Qed.

(** A property that every transaction preserves holds along a history. *)
Lemma run_ind (P : State → Prop) :
  (∀ st tx, fresh st → P st → P (applyTx st tx)) →
  ∀ txs st, fresh st → P st → P (run st txs).
Proof.
  intros Hstep txs. induction txs as [|tx txs IH]; intros st Hf HP; [done|].
  simpl. apply IH; [by apply fresh_applyTx|by apply Hstep].
Qed.

Lemma existing_run st txs id :
  fresh st → startTime (sessionAt st id) ≠ 0 →
  startTime (sessionAt (run st txs) id) = startTime (sessionAt st id)
  ∧ endTime (sessionAt (run st txs) id) = endTime (sessionAt st id)
  ∧ theaterCompany (sessionAt (run st txs) id) = theaterCompany (sessionAt st id)
  ∧ allocated (run st txs) id.
Proof.
  intros Hf Hex.
  assert (allocated st id) as Ha by by apply fresh_allocated.
  set (s := sessionAt st id).
  apply (run_ind (λ st', startTime (sessionAt st' id) = startTime s
                         ∧ endTime (sessionAt st' id) = endTime s
                         ∧ theaterCompany (sessionAt st' id) = theaterCompany s
                         ∧ allocated st' id)); [|done|done].
  intros st' tx _ (H1 & H2 & H3 & Ha').
  destruct (metadata_applyTx st' tx id Ha') as (-> & -> & ->).
  split; [done|]. split; [done|]. split; [done|].
  by apply allocated_applyTx.
Qed.

Lemma hasVoted_run st txs id a :
  (id, a) ∈ _hasVoted st → (id, a) ∈ _hasVoted (run st txs).
Proof.
  revert st. induction txs as [|tx txs IH]; intros st Hin; [done|].
  simpl. by apply IH, hasVoted_applyTx.
Qed.

Lemma authorized_run st txs id a :
  (id, a) ∈ _authorizedTheaters st → (id, a) ∈ _authorizedTheaters (run st txs).
Proof.
  revert st. induction txs as [|tx txs IH]; intros st Hin; [done|].
  simpl. by apply IH, authorized_applyTx.
Qed.

(** ** The guards of [submitVote] *)

Lemma submitVote_Revert id i1 p1 i2 p2 i3 p3 i4 p4 h env st e :
  exec (submitVote id i1 p1 i2 p2 i3 p3 i4 p4 h) env st = Revert e →
  applyTx st (mkTx env (SubmitVote id i1 p1 i2 p2 i3 p3 i4 p4 h)) = st.
Proof.
  unfold applyTx, dispatch; cbn [tx_call tx_env]. by intros ->.
Qed.

(** C5 (amended): [submitVote] checks, in this order, that the session exists,
    that it is active, that the time lies in [[startTime, endTime]] and that
    the caller has not voted; the first failing check decides the error, which
    is [SessionNotFound], [SessionNotActive] (for the flag and for the time
    window alike) or [AlreadyVoted]. Once an address has voted in a session,
    every later vote of that address in that session fails, whatever the
    ratings and the comment digest, and leaves the state unchanged: with
    [AlreadyVoted] when the session is still active and the time in the
    window, with [SessionNotActive] otherwise. *)
Theorem submitVote_checks_in_order id i1 p1 i2 p2 i3 p3 i4 p4 h env st :
  let s := sessionAt st id in
  let now := block_timestamp env in
  let outcome := exec (submitVote id i1 p1 i2 p2 i3 p3 i4 p4 h) env st in
  (startTime s = 0 → outcome = Revert SessionNotFound)
  ∧ (startTime s ≠ 0 → isActive s = false →
     outcome = Revert SessionNotActive)
  ∧ (startTime s ≠ 0 → isActive s = true →
     ¬ (startTime s ≤ now ≤ endTime s) →
     outcome = Revert SessionNotActive)
  ∧ (startTime s ≠ 0 → isActive s = true →
     startTime s ≤ now ≤ endTime s →
     hasVotedFlag st id (msg_sender env) = true →
     outcome = Revert AlreadyVoted)
  ∧ (fresh st → ∀ st1, outcome = Ok st1 →
     ∀ txs j1 q1 j2 q2 j3 q3 j4 q4 h' now',
       let st2 := run st1 txs in
       let s2 := sessionAt st2 id in
       let env' := mkEnv (msg_sender env) now' in
       exec (submitVote id j1 q1 j2 q2 j3 q3 j4 q4 h') env' st2 =
         Revert (if isActive s2
                    && bool_decide (startTime s2 ≤ now' ≤ endTime s2)
                 then AlreadyVoted else SessionNotActive)
       ∧ applyTx st2 (mkTx env' (SubmitVote id j1 q1 j2 q2 j3 q3 j4 q4 h'))
         = st2).
Proof.
  cbn zeta. unfold exec at 1 2 3 4. rewrite submitVote_eq. cbn zeta.
  split; [|split; [|split; [|split]]].
  - intros ->. by rewrite bool_decide_eq_true_2.
  - intros ? ->. by rewrite bool_decide_eq_false_2.
  - intros ? -> Hout. rewrite bool_decide_eq_false_2 by done. cbn [negb].
    destruct (decide (block_timestamp env < startTime (sessionAt st id))).
    + by rewrite bool_decide_eq_true_2.
    + rewrite (bool_decide_eq_true_2 (endTime _ < _)) by lia.
      by rewrite orb_true_r.
  - intros ? -> ? ->. rewrite !bool_decide_eq_false_2 by (done || lia). done.
  - intros Hf st1' Hok txs j1 q1 j2 q2 j3 q3 j4 q4 h' now'.
    assert (fresh st1') as Hf1.
    { replace st1' with
        (applyTx st (mkTx env (SubmitVote id i1 p1 i2 p2 i3 p3 i4 p4 h)));
        [by apply fresh_applyTx|].
      unfold applyTx, dispatch; cbn [tx_call tx_env]. by rewrite Hok. }
    apply submitVote_Ok in Hok as (Hex & _ & _ & _ & _ & _ & _ & _ & Hst1).
    set (st1 := st1') in *. clearbody st1.
    assert (startTime (sessionAt st1 id) ≠ 0) as Hex1.
    { rewrite Hst1, sessionAt_afterVote, decide_True by done. done. }
    destruct (existing_run st1 txs id Hf1 Hex1) as (Hstart & _ & _ & _).
    assert (hasVotedFlag (run st1 txs) id (msg_sender env) = true) as Hflag.
    { apply bool_decide_eq_true_2, hasVoted_run.
      rewrite Hst1. unfold afterVote; cbn [_hasVoted]. set_solver. }
    assert (exec (submitVote id j1 q1 j2 q2 j3 q3 j4 q4 h')
              (mkEnv (msg_sender env) now') (run st1 txs) =
            Revert (if isActive (sessionAt (run st1 txs) id)
                       && bool_decide
                            (startTime (sessionAt (run st1 txs) id) ≤ now'
                             ≤ endTime (sessionAt (run st1 txs) id))
                    then AlreadyVoted else SessionNotActive)) as Hrev.
    { unfold exec. rewrite submitVote_eq. cbn zeta. cbn [msg_sender block_timestamp].
      rewrite bool_decide_eq_false_2 by congruence. rewrite Hflag.
      destruct (isActive _); cbn [negb andb]; [|done].
      repeat case_bool_decide; cbn [orb]; try done; lia. }
    split; [exact Hrev|]. eapply submitVote_Revert, Hrev.
Qed.

Lemma submitVote_checks_in_order_witness :
  let again := submitVote 0 (ExternalEuint16 1 10) [1] (ExternalEuint16 2 20) [2]
                 (ExternalEuint16 3 30) [3] (ExternalEuint16 4 40) [4] 7 in
  exec again (mkEnv alice 1500) votedState = Revert AlreadyVoted
  ∧ exec again (mkEnv alice 1500) (run aliceVoted afterAlice)
    = Revert SessionNotActive.
Proof.
  intros again. split.
  - destruct (submitVote_checks_in_order 0 (ExternalEuint16 1 10) [1]
                (ExternalEuint16 2 20) [2] (ExternalEuint16 3 30) [3]
                (ExternalEuint16 4 40) [4] 7 (mkEnv alice 1500) votedState)
      as (_ & _ & _ & Hdup & _).
    apply Hdup.
    + vm_compute. discriminate.
    + vm_compute. reflexivity.
    + vm_compute. split; discriminate.
    + vm_compute. reflexivity.
  - destruct (submitVote_checks_in_order 0 (ExternalEuint16 1 80) [1]
                (ExternalEuint16 2 85) [2] (ExternalEuint16 3 75) [3]
                (ExternalEuint16 4 90) [4] 0 (mkEnv alice 1200) createdState)
      as (_ & _ & _ & _ & Hlater).
    destruct (Hlater (fresh_run _ [hamlet] fresh_initial) aliceVoted
                ltac:(vm_compute; reflexivity) afterAlice
                (ExternalEuint16 1 10) [1] (ExternalEuint16 2 20) [2]
                (ExternalEuint16 3 30) [3] (ExternalEuint16 4 40) [4] 7 1500)
      as [Hrev _].
    cbn [msg_sender] in Hrev. subst again. rewrite Hrev.
    vm_compute. reflexivity.
Defined.

(** C5, as stated, fails: after the creator has closed the session, a second
    vote of an address that has voted is rejected with [SessionNotActive], not
    with the duplicate-vote error; and the closed session and the elapsed
    window are rejected with one and the same error. *)
Lemma second_vote_after_end_is_not_duplicate :
  let again := submitVote 0 (ExternalEuint16 1 10) [1] (ExternalEuint16 2 20) [2]
                 (ExternalEuint16 3 30) [3] (ExternalEuint16 4 40) [4] 7 in
  hasVotedFlag endedState 0 alice = true
  ∧ exec again (mkEnv alice 1500) endedState = Revert SessionNotActive
  ∧ exec again (mkEnv alice 1500) endedState ≠ Revert AlreadyVoted
  ∧ exec again (mkEnv 5 1500) endedState = Revert SessionNotActive
  ∧ exec again (mkEnv 5 9999) votedState = Revert SessionNotActive.
Proof.
  intros again. assert (exec again (mkEnv alice 1500) endedState
                        = Revert SessionNotActive) as E
    by (vm_compute; reflexivity).
  split; [vm_compute; reflexivity|]. split; [exact E|].
  split; [rewrite E; discriminate|].
  split; vm_compute; reflexivity.
Qed.

(** ** The comment digest *)

(** C9: the outcome of [submitVote] and the state it leaves do not depend on
    the comment digest. A successful vote changes the caller's has-voted
    flag, the four accumulators and [voteCount] of the session (and re-grants
    the contract the use of the new accumulators, and logs the new count);
    every other part of the storage is as before. *)
Theorem submitVote_ignores_commentHash id i1 p1 i2 p2 i3 p3 i4 p4 env st :
  (∀ h1 h2,
     submitVote id i1 p1 i2 p2 i3 p3 i4 p4 h1 env st =
     submitVote id i1 p1 i2 p2 i3 p3 i4 p4 h2 env st
     ∧ applyTx st (mkTx env (SubmitVote id i1 p1 i2 p2 i3 p3 i4 p4 h1)) =
       applyTx st (mkTx env (SubmitVote id i1 p1 i2 p2 i3 p3 i4 p4 h2)))
  ∧ (∀ h st',
       exec (submitVote id i1 p1 i2 p2 i3 p3 i4 p4 h) env st = Ok st' →
       _nextSessionId st' = _nextSessionId st
       ∧ _decryptedResults st' = _decryptedResults st
       ∧ _authorizedTheaters st' = _authorizedTheaters st
       ∧ _hasVoted st' = {[ (id, msg_sender env) ]} ∪ _hasVoted st
       ∧ (∀ id', id' ≠ id → sessionAt st' id' = sessionAt st id')
       ∧ sessionAt st' id =
           votedSession (FromExternal i1) (FromExternal i2) (FromExternal i3)
                        (FromExternal i4) (sessionAt st id)
       ∧ logs st' = logs st ++ [VoteSubmitted id (msg_sender env)
                                  (voteCount (sessionAt st id) + 1)]).
Proof.
  split.
  - intros h1 h2. split; [reflexivity|].
    unfold applyTx, dispatch, exec; cbn [tx_call tx_env]. reflexivity.
  - intros h st' (_ & _ & _ & _ & _ & _ & _ & _ & ->)%submitVote_Ok.
    split; [done|]. split; [done|]. split; [done|]. split; [done|].
    split; [|split].
    + intros id' Hne. by rewrite sessionAt_afterVote, decide_False.
    + by rewrite sessionAt_afterVote, decide_True.
    + reflexivity.
Qed.

Lemma submitVote_ignores_commentHash_witness :
  let st' := applyTx votedState (mkTx (mkEnv 5 1500) (ballot 0 70 60 50 40)) in
  _hasVoted st' = {[ (0, 5) ]} ∪ _hasVoted votedState
  ∧ _authorizedTheaters st' = _authorizedTheaters votedState.
Proof.
  intros st'.
  destruct (submitVote_ignores_commentHash 0 (ExternalEuint16 1 70) [1]
              (ExternalEuint16 2 60) [2] (ExternalEuint16 3 50) [3]
              (ExternalEuint16 4 40) [4] (mkEnv 5 1500) votedState)
    as [_ Hframe].
  destruct (Hframe 0 st') as (_ & _ & Hauth & Hvoted & _).
  - vm_compute. reflexivity.
  - split; [exact Hvoted|exact Hauth].
Defined.

(** ** Reads *)

Lemma flagged_initial : flagged initialState.
Proof. intros id a [H|H]; cbn in H; set_solver. Qed.

Lemma flagged_applyTx st tx : fresh st → flagged st → flagged (applyTx st tx).
Proof.
  intros Hf Hfl id a. pose proof (Hfl id a) as Ha.
  tx_cases tx; try exact Ha.
  - unfold afterCreate, allocated in *; cbn [_hasVoted _authorizedTheaters
      _nextSessionId].
    rewrite elem_of_union, elem_of_singleton. destruct Hf as [? _].
    intros [?|[?|?]]; simplify_eq; lia || (cut (0 ≤ id < _nextSessionId st);
      [lia|tauto]).
  - unfold afterVote; cbn [_hasVoted _authorizedTheaters].
    rewrite elem_of_union, elem_of_singleton.
    intros [[?|?]|?]; simplify_eq; [|by apply Ha; left|by apply Ha; right].
    by apply (fresh_allocated st).
  - unfold afterAuthorize; cbn [_hasVoted _authorizedTheaters].
    rewrite elem_of_union, elem_of_singleton.
    intros [?|[?|?]]; simplify_eq; [by apply Ha; left| |by apply Ha; right].
    by apply (fresh_allocated st).
Qed.

Lemma reachable_flagged st : reachable st → flagged st.
Proof.
  intros Hr. induction Hr as [|st tx Hr IH] using reachable_ind.
  - apply flagged_initial.
  - apply flagged_applyTx; [by apply reachable_fresh|done].
Qed.

Lemma unallocated_zero st id :
  fresh st → ¬ allocated st id → sessionAt st id = zeroSession.
Proof. intros [_ Hf] Hn. unfold sessionAt. by rewrite Hf. Qed.

(** C3 (amended): [getSessionInfo], [getEncryptedAggregates] and
    [getDecryptedResults] revert with [SessionNotFound] when no session exists
    under the id; [hasVoted] and [isAuthorized] make no such check and never
    revert: they return the stored flag, which is [false] for an id that was
    never allocated. No read changes the state. *)
Theorem reads_of_missing_session st id env :
  reachable st →
  (startTime (sessionAt st id) = 0 →
     getSessionInfo id env st = Revert SessionNotFound
     ∧ getEncryptedAggregates id env st = Revert SessionNotFound
     ∧ getDecryptedResults id env st = Revert SessionNotFound)
  ∧ (∀ a, hasVoted id a env st = Ok (hasVotedFlag st id a, st)
          ∧ isAuthorized id a env st = Ok (authorizedFlag st id a, st))
  ∧ (¬ allocated st id →
     startTime (sessionAt st id) = 0
     ∧ ∀ a, hasVoted id a env st = Ok (false, st)
            ∧ isAuthorized id a env st = Ok (false, st))
  ∧ (∀ r st', getSessionInfo id env st = Ok (r, st') → st' = st)
  ∧ (∀ r st', getEncryptedAggregates id env st = Ok (r, st') → st' = st)
  ∧ (∀ r st', getDecryptedResults id env st = Ok (r, st') → st' = st)
  ∧ (∀ r st', getTotalSessions env st = Ok (r, st') → st' = st).
Proof.
  intros Hr. split; [|split; [|split]].
  - intros Hz. rewrite getDecryptedResults_eq. unfold_call. cbn zeta.
    by rewrite !bool_decide_eq_true_2.
  - intros a. split; reflexivity.
  - intros Hn. pose proof (reachable_fresh st Hr) as Hf.
    split; [by rewrite unallocated_zero|].
    intros a. unfold hasVoted, isAuthorized, bind, get, ret,
      hasVotedFlag, authorizedFlag.
    pose proof (reachable_flagged st Hr id a) as Hfl.
    rewrite !bool_decide_eq_false_2 by tauto. done.
  - rewrite getDecryptedResults_eq. unfold_call. cbn zeta.
    repeat split; intros r st'; repeat guard_cases; congruence.
Qed.

Lemma reads_of_missing_session_witness :
  getSessionInfo 999 (mkEnv alice 1500) votedState = Revert SessionNotFound
  ∧ hasVoted 999 alice (mkEnv alice 1500) votedState = Ok (false, votedState).
Proof.
  destruct (reads_of_missing_session votedState 999 (mkEnv alice 1500))
    as (Hchecked & _ & Hflags & _).
  - exists threeVotes. reflexivity.
  - split.
    + apply Hchecked. vm_compute. reflexivity.
    + destruct Hflags as [_ Hfalse].
      * vm_compute. intros [_ H]. discriminate H.
      * exact (proj1 (Hfalse alice)).
Defined.

(** C3, as stated, fails: [hasVoted] and [isAuthorized] answer [false] for a
    session id that does not exist, they do not revert. *)
Lemma flag_reads_do_not_revert :
  startTime (sessionAt votedState 999) = 0
  ∧ getSessionInfo 999 (mkEnv alice 1500) votedState = Revert SessionNotFound
  ∧ hasVoted 999 alice (mkEnv alice 1500) votedState = Ok (false, votedState)
  ∧ isAuthorized 999 theater (mkEnv alice 1500) votedState
    = Ok (false, votedState)
  ∧ hasVoted 999 alice (mkEnv alice 1500) votedState ≠ Revert SessionNotFound
  ∧ isAuthorized 999 theater (mkEnv alice 1500) votedState
    ≠ Revert SessionNotFound.
Proof.
  assert (hasVotedFlag votedState 999 alice = false) as Hv
    by (vm_compute; reflexivity).
  assert (authorizedFlag votedState 999 theater = false) as Ha
    by (vm_compute; reflexivity).
  unfold hasVoted, isAuthorized, bind, get, ret. rewrite Hv, Ha.
  split; [vm_compute; reflexivity|].
  split; [vm_compute; reflexivity|].
  repeat split; discriminate.
Qed.

(** ** A session created with a zero start time *)

Lemma metadata_run st txs id :
  allocated st id →
  startTime (sessionAt (run st txs) id) = startTime (sessionAt st id)
  ∧ allocated (run st txs) id.
Proof.
  revert st. induction txs as [|tx txs IH]; intros st Ha; [done|].
  simpl. destruct (IH (applyTx st tx)) as [-> ?].
  - by apply allocated_applyTx.
  - split; [|done]. by apply metadata_applyTx.
Qed.

(** Every call that checks the existence of the session fails on a session
    whose [startTime] is zero. *)
Lemma sentinel_blocks st id env :
  startTime (sessionAt st id) = 0 →
  (∀ i1 p1 i2 p2 i3 p3 i4 p4 h,
     submitVote id i1 p1 i2 p2 i3 p3 i4 p4 h env st = Revert SessionNotFound)
  ∧ endSession id env st = Revert SessionNotFound
  ∧ (∀ a, authorizeTheater id a env st = Revert SessionNotFound)
  ∧ requestDecryption id env st = Revert SessionNotFound
  ∧ (∀ a b c d,
       storeDecryptedResults id a b c d env st = Revert SessionNotFound)
  ∧ getSessionInfo id env st = Revert SessionNotFound
  ∧ getEncryptedAggregates id env st = Revert SessionNotFound
  ∧ getDecryptedResults id env st = Revert SessionNotFound.
Proof.
  intros Hz. repeat split; intros;
    rewrite ?submitVote_eq, ?endSession_eq, ?authorizeTheater_eq,
      ?requestDecryption_eq, ?storeDecryptedResults_eq,
      ?getDecryptedResults_eq;
    unfold_call; cbn zeta; by rewrite bool_decide_eq_true_2.
Qed.

(** C10: [createSession] does not reject a zero [startTime]: the call
    succeeds (short of the overflow of the id counter), returns the next
    sequential id and adds one to [getTotalSessions]; from then on every
    operation on that id that checks existence reverts with
    [SessionNotFound], whatever happens in between. *)
Theorem zero_startTime_session_is_unusable t v stop env st :
  fresh st → _nextSessionId st ≠ UINT256_MAX →
  let id := _nextSessionId st in
  ∃ st1,
    createSession t v 0 stop env st = Ok (id, st1)
    ∧ ¬ allocated st id ∧ allocated st1 id
    ∧ getTotalSessions env st = Ok (id, st)
    ∧ getTotalSessions env st1 = Ok (id + 1, st1)
    ∧ ∀ txs env',
        let st2 := run st1 txs in
        (∀ i1 p1 i2 p2 i3 p3 i4 p4 h,
           submitVote id i1 p1 i2 p2 i3 p3 i4 p4 h env' st2
           = Revert SessionNotFound)
        ∧ endSession id env' st2 = Revert SessionNotFound
        ∧ (∀ a, authorizeTheater id a env' st2 = Revert SessionNotFound)
        ∧ requestDecryption id env' st2 = Revert SessionNotFound
        ∧ (∀ a b c d,
             storeDecryptedResults id a b c d env' st2
             = Revert SessionNotFound)
        ∧ getSessionInfo id env' st2 = Revert SessionNotFound
        ∧ getEncryptedAggregates id env' st2 = Revert SessionNotFound
        ∧ getDecryptedResults id env' st2 = Revert SessionNotFound.
Proof.
  intros [Hpos Hf] Hmax id.
  exists (afterCreate t v 0 stop (msg_sender env) st).
  split. { rewrite createSession_eq. by rewrite bool_decide_eq_false_2. }
  split. { unfold allocated, id. lia. }
  assert (allocated (afterCreate t v 0 stop (msg_sender env) st) id) as Ha.
  { unfold allocated, id, afterCreate; cbn [_nextSessionId]. lia. }
  split; [done|]. split; [reflexivity|]. split; [reflexivity|].
  intros txs env'. apply sentinel_blocks.
  destruct (metadata_run _ txs id Ha) as [-> _].
  unfold id. by rewrite sessionAt_afterCreate, decide_True.
Qed.

Lemma zero_startTime_session_is_unusable_witness :
  ∃ st1,
    createSession "Macbeth" "Cellar" 0 5000 (mkEnv theater 1500) votedState
    = Ok (1, st1)
    ∧ endSession 1 (mkEnv theater 1600) st1 = Revert SessionNotFound.
Proof.
  destruct (zero_startTime_session_is_unusable "Macbeth" "Cellar" 5000
              (mkEnv theater 1500) votedState) as (st1 & Hc & _ & _ & _ & _ & Hb).
  - exact (fresh_run initialState threeVotes fresh_initial).
  - vm_compute. discriminate.
  - pose proof (proj1 (proj2 (Hb [] (mkEnv theater 1600)))) as He.
    assert (_nextSessionId votedState = 1) as E by (vm_compute; reflexivity).
    rewrite E in Hc, He. exists st1. split; [exact Hc|exact He].
Defined.

(** ** Storing the decrypted results *)

Lemma resultsAt_afterStore st id id' a b c d :
  resultsAt (afterStore id a b c d st) id' =
  if decide (id = id') then mkDecryptedResults a b c d else resultsAt st id'.
Proof.
  unfold resultsAt, afterStore; cbn [_decryptedResults]. case_decide; subst.
  - by rewrite lookup_insert_eq.
  - by rewrite lookup_insert_ne.
Qed.

Lemma stored_applyTx id r st tx : stored id r st → stored id r (applyTx st tx).
Proof.
  intros (Ha & Hex & Hreq & Hdone & Hres).
  pose proof (allocated_applyTx st tx id Ha) as Ha'.
  destruct (metadata_applyTx st tx id Ha) as (Hstart & _ & _).
  split; [done|]. split; [by rewrite Hstart|].
  clear Ha' Hstart. unfold allocated in Ha.
  tx_cases tx; after_reads; rewrite ?resultsAt_afterStore; case_ids;
    try done; try lia; congruence.
Qed.

Lemma stored_run id r st txs : stored id r st → stored id r (run st txs).
Proof.
  revert st. induction txs as [|tx txs IH]; intros st Hs; [done|].
  simpl. by apply IH, stored_applyTx.
Qed.

Lemma storeDecryptedResults_Ok id a b c d env st st' :
  exec (storeDecryptedResults id a b c d) env st = Ok st' →
  let s := sessionAt st id in
  startTime s ≠ 0
  ∧ authorizedFlag st id (msg_sender env) = true
  ∧ decryptionRequested s = true
  ∧ decryptionCompleted s = false
  ∧ averagePanics (voteCount s) = false
  ∧ st' = afterStore id a b c d st.
Proof.
  unfold exec. rewrite storeDecryptedResults_eq. cbn zeta.
  repeat guard_cases; intros; simplify_eq. clean_guards. naive_solver.
Qed.

(** C6: a successful [storeDecryptedResults] was called by an authorised
    address on a session whose decryption was requested and not completed; it
    sets [decryptionCompleted] and stores the four totals. From then on, and
    whatever happens in between, every call of it on that session fails, with
    "Results already stored" when the caller is authorised, and the stored
    totals stay as they are. *)
Theorem storeDecryptedResults_once id a b c d env st st1 :
  fresh st →
  exec (storeDecryptedResults id a b c d) env st = Ok st1 →
  let s := sessionAt st id in
  authorizedFlag st id (msg_sender env) = true
  ∧ decryptionRequested s = true
  ∧ decryptionCompleted s = false
  ∧ decryptionCompleted (sessionAt st1 id) = true
  ∧ resultsAt st1 id = mkDecryptedResults a b c d
  ∧ ∀ txs env' a' b' c' d',
      let st2 := run st1 txs in
      let again := exec (storeDecryptedResults id a' b' c' d') env' st2 in
      (authorizedFlag st2 id (msg_sender env') = true →
       again = Revert (RevertString "Results already stored"))
      ∧ (authorizedFlag st2 id (msg_sender env') = false →
         again = Revert UnauthorizedTheater)
      ∧ applyTx st2 (mkTx env' (StoreDecryptedResults id a' b' c' d')) = st2
      ∧ resultsAt st2 id = mkDecryptedResults a b c d.
Proof.
  intros Hf Hok. apply storeDecryptedResults_Ok in Hok
    as (Hex & Hauth & Hreq & Hnot & _ & ->). cbn zeta.
  assert (stored id (mkDecryptedResults a b c d) (afterStore id a b c d st))
    as Hs.
  { split; [by apply (fresh_allocated st)|].
    rewrite sessionAt_afterStore, resultsAt_afterStore, !decide_True by done.
    done. }
  split; [done|]. split; [done|]. split; [done|].
  split; [apply Hs|]. split; [apply Hs|].
  intros txs env' a' b' c' d'.
  destruct (stored_run _ _ _ txs Hs) as (_ & Hex2 & Hreq2 & Hdone2 & Hres2).
  assert (∃ e, exec (storeDecryptedResults id a' b' c' d') env'
                 (run (afterStore id a b c d st) txs) = Revert e
               ∧ (authorizedFlag (run (afterStore id a b c d st) txs) id
                    (msg_sender env') = true →
                  e = RevertString "Results already stored")
               ∧ (authorizedFlag (run (afterStore id a b c d st) txs) id
                    (msg_sender env') = false →
                  e = UnauthorizedTheater)) as (e & Hrev & Hyes & Hno).
  { unfold exec. rewrite storeDecryptedResults_eq. cbn zeta.
    rewrite bool_decide_eq_false_2, Hreq2, Hdone2 by done.
    destruct (authorizedFlag (run _ _) _ _); cbn [negb]; eexists;
      (split; [reflexivity|]); split; intros; done. }
  split; [intros ?; rewrite Hrev; f_equal; by apply Hyes|].
  split; [intros ?; rewrite Hrev; f_equal; by apply Hno|].
  split; [|done].
  unfold applyTx, dispatch; cbn [tx_call tx_env]. by rewrite Hrev.
Qed.

Lemma storeDecryptedResults_once_witness :
  exec (storeDecryptedResults 0 1 2 3 4) (mkEnv bob 1500)
       (run storedState afterStoring)
  = Revert (RevertString "Results already stored")
  ∧ resultsAt (run storedState afterStoring) 0
    = mkDecryptedResults 255 263 245 262.
Proof.
  destruct (storeDecryptedResults_once 0 255 263 245 262 (mkEnv theater 1470)
              requestedState storedState) as (_ & _ & _ & _ & _ & Hlater).
  - exact (fresh_run initialState _ fresh_initial).
  - vm_compute. reflexivity.
  - destruct (Hlater afterStoring (mkEnv bob 1500) 1 2 3 4)
      as (Hdup & _ & _ & Hres).
    split; [|exact Hres]. apply Hdup. vm_compute. reflexivity.
Defined.

(** ** Requesting the decryption *)

Lemma requestDecryption_Ok id env st st' :
  exec (requestDecryption id) env st = Ok st' →
  let s := sessionAt st id in
  startTime s ≠ 0
  ∧ authorizedFlag st id (msg_sender env) = true
  ∧ (isActive s = false ∨ endTime s < block_timestamp env)
  ∧ MIN_VOTES_FOR_DECRYPTION ≤ voteCount s
  ∧ decryptionRequested s = false
  ∧ st' = afterRequest id (msg_sender env) st.
Proof.
  unfold exec. rewrite requestDecryption_eq. cbn zeta.
  repeat guard_cases; intros; simplify_eq. clean_guards.
  repeat split; try done; try lia.
  destruct (isActive (sessionAt st id)); [right|by left].
  cbn [andb] in *. clean_guards. lia.
Qed.

Lemma createSession_Ok t v start stop env st st' :
  exec (createSession t v start stop) env st = Ok st' →
  _nextSessionId st ≠ UINT256_MAX
  ∧ st' = afterCreate t v start stop (msg_sender env) st.
Proof.
  unfold exec. rewrite createSession_eq.
  case_bool_decide; intros; by simplify_eq.
Qed.

Lemma authorizeTheater_Ok id a env st st' :
  exec (authorizeTheater id a) env st = Ok st' →
  startTime (sessionAt st id) ≠ 0
  ∧ msg_sender env = theaterCompany (sessionAt st id)
  ∧ st' = afterAuthorize id a st.
Proof.
  unfold exec. rewrite authorizeTheater_eq. cbn zeta.
  repeat case_bool_decide; intros; by simplify_eq.
Qed.

(** C1 (amended): on an existing session and for an authorised caller,
    [requestDecryption] fails with [SessionStillActive] when [isActive] is set
    and the time is not past [endTime]; once the time is past [endTime] the
    flag does not block the request. [decryptionRequested] becomes true only
    through a [requestDecryption] on a session that is inactive or whose
    [endTime] has passed, with at least the minimum of votes. *)
Theorem requestDecryption_still_active id env st :
  let s := sessionAt st id in
  let now := block_timestamp env in
  (startTime s ≠ 0 → authorizedFlag st id (msg_sender env) = true →
   isActive s = true → now ≤ endTime s →
   exec (requestDecryption id) env st = Revert SessionStillActive)
  ∧ (isActive s = true → endTime s < now →
     exec (requestDecryption id) env st ≠ Revert SessionStillActive)
  ∧ (∀ tx,
       decryptionRequested s = false →
       decryptionRequested (sessionAt (applyTx st tx) id) = true →
       tx_call tx = RequestDecryption id
       ∧ (isActive s = false ∨ endTime s < block_timestamp (tx_env tx))
       ∧ MIN_VOTES_FOR_DECRYPTION ≤ voteCount s
       ∧ isActive (sessionAt (applyTx st tx) id) = isActive s).
Proof.
  cbn zeta. split; [|split].
  - intros Hex Hauth Hact Hnow. unfold exec.
    rewrite requestDecryption_eq. cbn zeta.
    rewrite bool_decide_eq_false_2, Hauth, Hact by done.
    by rewrite bool_decide_eq_true_2.
  - intros Hact Hnow. unfold exec. rewrite requestDecryption_eq. cbn zeta.
    rewrite Hact, (bool_decide_eq_false_2 (_ ≤ _)) by lia.
    repeat guard_cases; discriminate.
  - intros tx Hno Hyes.
    destruct tx as [env' c].
    destruct c; unfold applyTx, dispatch in *; cbn [tx_call tx_env] in *;
      match type of Hyes with
      | context [exec ?m ?e ?s] => destruct (exec m e s) as [st'|] eqn:Hok
      end; try congruence.
    + apply createSession_Ok in Hok as (_ & ->).
      rewrite sessionAt_afterCreate in Hyes. case_ids; simpl in *; exfalso; congruence.
    + apply submitVote_Ok in Hok as (_ & _ & _ & _ & _ & _ & _ & _ & ->).
      rewrite sessionAt_afterVote in Hyes. case_ids; simpl in *; exfalso; congruence.
    + apply authorizeTheater_Ok in Hok as (_ & _ & ->).
      rewrite sessionAt_afterAuthorize in Hyes. exfalso; congruence.
    + apply requestDecryption_Ok in Hok as (_ & _ & Hclosed & Hmin & _ & ->).
      rewrite sessionAt_afterRequest in *. case_ids; [|congruence]. done.
    + apply endSession_Ok in Hok as (_ & _ & ->).
      rewrite sessionAt_afterEnd in Hyes. case_ids; simpl in *; exfalso; congruence.
    + apply storeDecryptedResults_Ok in Hok as (_ & _ & _ & _ & _ & ->).
      rewrite sessionAt_afterStore in Hyes. case_ids; simpl in *; exfalso; congruence.
Qed.

Lemma requestDecryption_still_active_witness :
  exec (requestDecryption 0) (mkEnv theater 1500) votedState
  = Revert SessionStillActive
  ∧ isActive (sessionAt endedState 0) = false.
Proof.
  destruct (requestDecryption_still_active 0 (mkEnv theater 1500) votedState)
    as (Hblock & _ & _).
  destruct (requestDecryption_still_active 0 (mkEnv theater 1460) endedState)
    as (_ & _ & Hbecomes).
  split.
  - apply Hblock.
    + vm_compute. discriminate.
    + vm_compute. reflexivity.
    + vm_compute. reflexivity.
    + vm_compute. discriminate.
  - destruct (Hbecomes (mkTx (mkEnv theater 1460) (RequestDecryption 0)))
      as (_ & [Hoff|Hlate] & _).
    + vm_compute. reflexivity.
    + vm_compute. reflexivity.
    + exact Hoff.
    + exfalso. revert Hlate. vm_compute. discriminate.
Defined.

(** C1, as stated, fails: once [endTime] has passed, an authorised caller
    obtains the decryption request on a session whose [isActive] flag is
    still set, and the flag stays set. *)
Lemma requestDecryption_on_active_session_past_endTime :
  let st' := applyTx votedState (mkTx (mkEnv theater 5000) (RequestDecryption 0)) in
  isActive (sessionAt votedState 0) = true
  ∧ endTime (sessionAt votedState 0) = 4600
  ∧ exec (requestDecryption 0) (mkEnv theater 5000) votedState = Ok st'
  ∧ exec (requestDecryption 0) (mkEnv theater 5000) votedState
    ≠ Revert SessionStillActive
  ∧ isActive (sessionAt st' 0) = true
  ∧ decryptionRequested (sessionAt st' 0) = true.
Proof.
  intros st'.
  assert (exec (requestDecryption 0) (mkEnv theater 5000) votedState = Ok st')
    as E by (vm_compute; reflexivity).
  split; [vm_compute; reflexivity|]. split; [vm_compute; reflexivity|].
  split; [exact E|]. split; [rewrite E; discriminate|].
  split; vm_compute; reflexivity.
Qed.

(** ** The accumulators *)

Lemma to_uint16_range x : 0 ≤ to_uint16 x < 65536.
Proof. unfold to_uint16. apply Z.mod_pos_bound. lia. Qed.

Lemma decrypt_range e : 0 ≤ decrypt e < 65536.
Proof. destruct e; cbn [decrypt]; try apply to_uint16_range. lia. Qed.

Lemma to_uint16_small x : 0 ≤ x < 65536 → to_uint16 x = x.
Proof. intros. unfold to_uint16. by apply Z.mod_small. Qed.

Lemma to_uint16_add_l x y : to_uint16 (to_uint16 x + y) = to_uint16 (x + y).
Proof. unfold to_uint16. by rewrite Zplus_mod_idemp_l. Qed.

Lemma to_uint16_add_r x y : to_uint16 (x + to_uint16 y) = to_uint16 (x + y).
Proof. unfold to_uint16. by rewrite Zplus_mod_idemp_r. Qed.

(** Homomorphic addition adds the cleartexts modulo 2^16. *)
Lemma decrypt_add a b :
  decrypt (FHE.add a b) = to_uint16 (decrypt a + decrypt b).
Proof. unfold FHE.add. by destruct a, b. Qed.

Lemma aggregate_votedSession d i1 i2 i3 i4 s c :
  (∃ id p1 p2 p3 p4 h, c = SubmitVote id i1 p1 i2 p2 i3 p3 i4 p4 h) →
  decrypt (aggregate d (votedSession (FromExternal i1) (FromExternal i2)
                          (FromExternal i3) (FromExternal i4) s)) =
  to_uint16 (decrypt (aggregate d s) + rating d c).
Proof.
  intros (id & p1 & p2 & p3 & p4 & h & ->).
  destruct d; cbn [aggregate votedSession withVoteCount withAggregates
    aggregatedPlotTension aggregatedPerformance aggregatedStageDesign
    aggregatedPacing rating];
    rewrite decrypt_add; cbn [decrypt]; apply to_uint16_add_r.
Qed.

Lemma aggregate_zeroSession d : decrypt (aggregate d zeroSession) = 0.
Proof. by destruct d. Qed.

(** One transaction adds to an accumulator the rating of a successful vote,
    and nothing otherwise. *)
Lemma aggregate_applyTx d id st tx :
  fresh st →
  decrypt (aggregate d (sessionAt (applyTx st tx) id)) =
  to_uint16 (decrypt (aggregate d (sessionAt st id))
             + (if votesOn id st tx then rating d (tx_call tx) else 0)).
Proof.
  intros Hf.
  assert (∀ s, decrypt (aggregate d s) = to_uint16 (decrypt (aggregate d s) + 0))
    as Hsame.
  { intros s. rewrite Z.add_0_r, to_uint16_small; [done|apply decrypt_range]. }
  destruct tx as [env c].
  destruct c; unfold applyTx, votesOn, dispatch; cbn [tx_call tx_env];
    match goal with
    | |- context [exec ?m ?e ?s] => destruct (exec m e s) as [st'|] eqn:Hok
    end; rewrite ?andb_false_r; try apply Hsame.
  - apply createSession_Ok in Hok as (_ & ->).
    rewrite sessionAt_afterCreate. case_ids; [|apply Hsame].
    rewrite unallocated_zero by (done || unfold allocated; lia).
    by destruct d.
  - apply submitVote_Ok in Hok as (_ & _ & _ & _ & _ & _ & _ & _ & ->).
    rewrite sessionAt_afterVote. case_bool_decide; case_ids; try done;
      cbn [andb]; try apply Hsame.
    erewrite aggregate_votedSession; [done|]. by repeat eexists.
  - apply authorizeTheater_Ok in Hok as (_ & _ & ->). apply Hsame.
  - apply requestDecryption_Ok in Hok as (_ & _ & _ & _ & _ & ->).
    rewrite sessionAt_afterRequest. case_ids; [|apply Hsame].
    by destruct d; rewrite <- Hsame.
  - apply endSession_Ok in Hok as (_ & _ & ->).
    rewrite sessionAt_afterEnd. case_ids; [|apply Hsame].
    by destruct d; rewrite <- Hsame.
  - apply storeDecryptedResults_Ok in Hok as (_ & _ & _ & _ & _ & ->).
    rewrite sessionAt_afterStore. case_ids; [|apply Hsame].
    by destruct d; rewrite <- Hsame.
Qed.

Lemma sumZ_app l1 l2 : sumZ (l1 ++ l2) = sumZ l1 + sumZ l2.
Proof. induction l1 as [|x l1 IH]; simpl; [done|]. rewrite IH. lia. Qed.

Lemma aggregate_run d id txs st :
  fresh st →
  decrypt (aggregate d (sessionAt (run st txs) id)) =
  to_uint16 (decrypt (aggregate d (sessionAt st id))
             + sumZ (ratings d id st txs)).
Proof.
  revert st. induction txs as [|tx txs IH]; intros st Hf.
  - simpl. rewrite Z.add_0_r, to_uint16_small; [done|apply decrypt_range].
  - cbn [run fold_left ratings]. fold (run (applyTx st tx) txs).
    rewrite IH by by apply fresh_applyTx.
    rewrite aggregate_applyTx by done. rewrite to_uint16_add_l, sumZ_app.
    f_equal. destruct (votesOn id st tx); simpl; lia.
Qed.

Lemma voteCount_applyTx d id st tx :
  voteCount (sessionAt (applyTx st tx) id) =
  voteCount (sessionAt st id)
  + Z.of_nat (length (if votesOn id st tx then [rating d (tx_call tx)] else [])).
Proof.
  destruct tx as [env c].
  destruct c; unfold applyTx, votesOn, dispatch; cbn [tx_call tx_env];
    match goal with
    | |- context [exec ?m ?e ?s] => destruct (exec m e s) as [st'|] eqn:Hok
    end; rewrite ?andb_false_r; cbn [length]; try lia.
  - apply createSession_Ok in Hok as (_ & ->).
    rewrite sessionAt_afterCreate. case_ids; simpl; lia.
  - apply submitVote_Ok in Hok as (_ & _ & _ & _ & _ & _ & _ & _ & ->).
    rewrite sessionAt_afterVote. case_bool_decide; case_ids; try done;
      simpl; lia.
  - apply authorizeTheater_Ok in Hok as (_ & _ & ->).
    rewrite sessionAt_afterAuthorize. lia.
  - apply requestDecryption_Ok in Hok as (_ & _ & _ & _ & _ & ->).
    rewrite sessionAt_afterRequest. case_ids; simpl; lia.
  - apply endSession_Ok in Hok as (_ & _ & ->).
    rewrite sessionAt_afterEnd. case_ids; simpl; lia.
  - apply storeDecryptedResults_Ok in Hok as (_ & _ & _ & _ & _ & ->).
    rewrite sessionAt_afterStore. case_ids; simpl; lia.
Qed.

Lemma voteCount_run d id txs st :
  voteCount (sessionAt (run st txs) id) =
  voteCount (sessionAt st id) + Z.of_nat (length (ratings d id st txs)).
Proof.
  revert st. induction txs as [|tx txs IH]; intros st.
  - simpl. lia.
  - cbn [run fold_left ratings]. fold (run (applyTx st tx) txs).
    rewrite IH, (voteCount_applyTx d), length_app. lia.
Qed.

Lemma sumZ_bounds (lo hi : Z) l :
  (∀ r, r ∈ l → lo ≤ r ≤ hi) →
  lo * Z.of_nat (length l) ≤ sumZ l ≤ hi * Z.of_nat (length l).
Proof.
  induction l as [|x l IH]; intros Hl; [simpl; lia|].
  assert (lo ≤ x ≤ hi) by (apply Hl; left).
  assert (lo * Z.of_nat (length l) ≤ sumZ l ≤ hi * Z.of_nat (length l))
    by (apply IH; intros; apply Hl; by right).
  cbn [sumZ foldr length] in *. fold (sumZ l). lia.
Qed.

(** C2 (amended): along every history, each accumulator decrypts to the sum
    of the ratings of the successful votes on the session, taken modulo 2^16,
    the accumulators being 16-bit sums that start at zero; it is the exact sum
    whenever that sum is below 65536, as it is for ratings in [[0, 100]] and
    at most 655 votes. *)
Theorem accumulators_sum_ratings txs id d :
  let st := run initialState txs in
  let rs := ratings d id initialState txs in
  let total := decrypt (aggregate d (sessionAt st id)) in
  total = to_uint16 (sumZ rs)
  ∧ voteCount (sessionAt st id) = Z.of_nat (length rs)
  ∧ (0 ≤ sumZ rs < 65536 → total = sumZ rs)
  ∧ ((∀ r, r ∈ rs → 0 ≤ r ≤ 100) → voteCount (sessionAt st id) ≤ 655 →
     total = sumZ rs).
Proof.
  cbn zeta.
  assert (decrypt (aggregate d (sessionAt (run initialState txs) id)) =
          to_uint16 (sumZ (ratings d id initialState txs))) as Hsum.
  { rewrite aggregate_run by apply fresh_initial.
    by rewrite aggregate_zeroSession. }
  assert (voteCount (sessionAt (run initialState txs) id) =
          Z.of_nat (length (ratings d id initialState txs))) as Hcount.
  { by rewrite (voteCount_run d). }
  split; [done|]. split; [done|]. split.
  - intros Hsmall. by rewrite Hsum, to_uint16_small.
  - intros Hr Hn. rewrite Hsum, to_uint16_small; [done|].
    apply (sumZ_bounds 0 100) in Hr. lia.
Qed.

Lemma accumulators_sum_ratings_witness :
  decrypt (aggregate PlotTension (sessionAt votedState 0)) = 255.
Proof.
  destruct (accumulators_sum_ratings threeVotes 0 PlotTension)
    as (_ & _ & _ & Hexact).
  assert (ratings PlotTension 0 initialState threeVotes = [80; 90; 85]) as E
    by (vm_compute; reflexivity).
  rewrite E in Hexact. apply Hexact.
  - intros r. rewrite !elem_of_cons, elem_of_nil. lia.
  - vm_compute. discriminate.
Defined.

(** C2, as stated, fails: when 656 voters rate the plot tension 100, the sum
    of the ratings is 65600 and the accumulator decrypts to 64. *)
Lemma full_house_wraps_around :
  let st := run initialState fullHouse in
  let rs := ratings PlotTension 0 initialState fullHouse in
  rs = replicate 656 100
  ∧ voteCount (sessionAt st 0) = 656
  ∧ sumZ rs = 65600
  ∧ decrypt (aggregatedPlotTension (sessionAt st 0)) = 64
  ∧ decrypt (aggregatedPlotTension (sessionAt st 0)) ≠ sumZ rs.
Proof.
  cbn zeta.
  assert (ratings PlotTension 0 initialState fullHouse = replicate 656 100)
    as -> by (vm_compute; reflexivity).
  assert (decrypt (aggregatedPlotTension (sessionAt (run initialState fullHouse) 0))
          = 64) as -> by (vm_compute; reflexivity).
  split; [done|]. split; [vm_compute; reflexivity|].
  split; [vm_compute; reflexivity|]. split; [done|].
  vm_compute. discriminate.
Qed.

(** ** Averages *)

Lemma applyTx_ballot st who now id a b c d :
  let s := sessionAt st id in
  startTime s ≠ 0 → isActive s = true → startTime s ≤ now ≤ endTime s →
  (id, who) ∉ _hasVoted st → voteCount s ≠ UINT256_MAX →
  applyTx st (mkTx (mkEnv who now) (ballot id a b c d)) =
  afterVote id who (FromExternal (ExternalEuint16 1 a))
            (FromExternal (ExternalEuint16 2 b))
            (FromExternal (ExternalEuint16 3 c))
            (FromExternal (ExternalEuint16 4 d)) st.
Proof.
  cbn zeta. intros Hex Hact Hwin Hnew Hmax.
  unfold applyTx, dispatch, ballot, exec; cbn [tx_call tx_env].
  rewrite submitVote_eq. cbn zeta. cbn [msg_sender block_timestamp].
  rewrite Hact. unfold hasVotedFlag.
  rewrite !bool_decide_eq_false_2 by (done || lia).
  reflexivity.
Qed.

Lemma crowd_S n :
  crowd (S n) =
  crowd n ++ [mkTx (mkEnv (100 + Z.of_nat n) 1200) (ballot 0 100 100 100 100)].
Proof. unfold crowd. by rewrite seq_S, map_app. Qed.

Lemma house_created : house 0 createdState.
Proof.
  unfold house. cbn zeta.
  assert (_hasVoted createdState = ∅) as -> by (vm_compute; reflexivity).
  repeat split; try (vm_compute; reflexivity); set_solver.
Qed.

Lemma UINT256_MAX_large n : Z.of_nat n < 65538 → Z.of_nat n ≠ UINT256_MAX.
Proof.
  unfold UINT256_MAX. intros.
  assert (2 ^ 17 ≤ 2 ^ 256) by (apply Z.pow_le_mono_r; lia). lia.
Qed.

Lemma house_vote n st :
  Z.of_nat n < 65538 → house n st →
  house (S n)
        (applyTx st (mkTx (mkEnv (100 + Z.of_nat n) 1200)
                          (ballot 0 100 100 100 100))).
Proof.
  intros Hn (Hstart & Hend & Hwho & Hact & Hreq & Hdone & Hcount & Hauth & Hv).
  rewrite applyTx_ballot; try lia.
  - unfold house. cbn zeta.
    rewrite sessionAt_afterVote, decide_True by done.
    unfold votedSession, afterVote.
    cbn [startTime endTime theaterCompany isActive decryptionRequested
         decryptionCompleted voteCount withVoteCount withAggregates
         _authorizedTheaters _hasVoted].
    rewrite Hcount.
    split; [done|]. split; [done|]. split; [done|]. split; [done|].
    split; [done|]. split; [done|]. split; [lia|]. split; [done|].
    intros a [Ha|Ha]%elem_of_union.
    + apply elem_of_singleton in Ha. simplify_eq. lia.
    + apply Hv in Ha. lia.
  - done.
  - intros Hin%Hv. lia.
  - rewrite Hcount. by apply UINT256_MAX_large.
Qed.

Lemma house_crowd n st :
  Z.of_nat n < 65538 → house 0 st → house n (run st (crowd n)).
Proof.
  intros Hn H0. induction n as [|n IH]; [done|].
  rewrite crowd_S, run_app. cbn [run fold_left].
  apply house_vote; [lia|]. apply IH. lia.
Qed.

(** A house with votes can be closed and its decryption requested. *)
Lemma house_requested n st :
  house n st → (0 < n)%nat →
  let st' := run st requesting in
  sessionAt st' 0 =
    withDecryptionRequested true (withIsActive false (sessionAt st 0))
  ∧ (0, theater) ∈ _authorizedTheaters st'.
Proof.
  intros (Hstart & Hend & Hwho & Hact & Hreq & Hdone & Hcount & Hauth & _) Hn.
  unfold requesting. cbn [run fold_left].
  (* the creator ends the session *)
  assert (applyTx st (mkTx (mkEnv theater 1450) (EndSession 0)) = afterEnd 0 st)
    as ->.
  { unfold applyTx, dispatch. cbn [tx_call tx_env].
    rewrite (proj2 (endSession_Ok 0 _ st (afterEnd 0 st))); [done|].
    cbn [msg_sender]. rewrite Hstart, Hwho. done. }
  set (st1 := afterEnd 0 st).
  assert (sessionAt st1 0 = withIsActive false (sessionAt st 0)) as Hs1.
  { unfold st1. by rewrite sessionAt_afterEnd, decide_True. }
  (* and requests the decryption *)
  assert (applyTx st1 (mkTx (mkEnv theater 1460) (RequestDecryption 0))
          = afterRequest 0 theater st1) as ->.
  { unfold applyTx, dispatch, exec. cbn [tx_call tx_env].
    rewrite requestDecryption_eq. cbn zeta. rewrite Hs1.
    cbn [startTime isActive voteCount decryptionRequested withIsActive
         msg_sender andb].
    rewrite Hstart, Hcount, Hreq. unfold authorizedFlag.
    rewrite (bool_decide_eq_true_2 (_ ∈ _)) by done.
    rewrite !bool_decide_eq_false_2
      by (done || unfold MIN_VOTES_FOR_DECRYPTION; lia).
    done. }
  split; [|done].
  by rewrite sessionAt_afterRequest, decide_True, Hs1.
Qed.

(** Storing the totals of a requested house. *)
Lemma house_store n st env :
  house n st → (0 < n)%nat →
  let st' := run st requesting in
  exec (storeDecryptedResults 0 255 263 245 262) (mkEnv theater 1470) st' =
    (if averagePanics (Z.of_nat n) then Revert (Panic 18)
     else Ok (afterStore 0 255 263 245 262 st'))
  ∧ getDecryptedResults 0 env (afterStore 0 255 263 245 262 st') =
    (if averagePanics (Z.of_nat n) then Revert (Panic 18)
     else Ok (mkResultsView 255 263 245 262
                (255 / to_uint16 (Z.of_nat n)) (263 / to_uint16 (Z.of_nat n))
                (245 / to_uint16 (Z.of_nat n)) (262 / to_uint16 (Z.of_nat n))
                (Z.of_nat n), afterStore 0 255 263 245 262 st')).
Proof.
  intros Hh Hn. destruct (house_requested n st Hh Hn) as [Hs2 Hauth2].
  destruct Hh as (Hstart & _ & _ & _ & _ & Hdone & Hcount & _).
  cbn zeta. set (st2 := run st requesting) in *. split.
  - unfold exec. rewrite storeDecryptedResults_eq. cbn zeta. rewrite Hs2.
    cbn [startTime isActive voteCount decryptionRequested decryptionCompleted
         withIsActive withDecryptionRequested msg_sender negb].
    rewrite Hstart, Hcount, Hdone. unfold authorizedFlag.
    rewrite (bool_decide_eq_true_2 (_ ∈ _)) by done.
    rewrite bool_decide_eq_false_2 by done. cbn [negb].
    by destruct (averagePanics _).
  - rewrite getDecryptedResults_eq. cbn zeta.
    rewrite sessionAt_afterStore, resultsAt_afterStore, !decide_True, Hs2
      by done.
    cbn [startTime voteCount decryptionCompleted withIsActive
         withDecryptionRequested withDecryptionCompleted negb
         totalPlotTension totalPerformance totalStageDesign totalPacing].
    rewrite Hstart, Hcount. rewrite bool_decide_eq_false_2 by done.
    destruct (averagePanics _); [done|].
    unfold averageValue. rewrite bool_decide_eq_true_2 by lia. done.
Qed.

Lemma run_cons st tx txs : run st (tx :: txs) = run (applyTx st tx) txs.
Proof. reflexivity. Qed.

Lemma createdState_eq : createdState = applyTx initialState hamlet.
Proof. reflexivity. Qed.

Lemma averagePanics_65537 : averagePanics 65537 = false.
Proof. reflexivity. Qed.

Lemma averagePanics_65536 : averagePanics 65536 = true.
Proof. reflexivity. Qed.

Lemma house_sold n :
  Z.of_nat n < 65538 → house n (run createdState (crowd n)).
Proof. intros Hn. apply house_crowd; [done|apply house_created]. Qed.

(** What a house of 65537 votes publishes. *)
Lemma house_65537 n st env :
  house n st → Z.of_nat n = 65537 →
  voteCount (sessionAt (run (run st requesting) [storing]) 0) = 65537
  ∧ decryptionCompleted (sessionAt (run (run st requesting) [storing]) 0) = true
  ∧ (∃ view,
       getDecryptedResults 0 env (run (run st requesting) [storing])
       = Ok (view, run (run st requesting) [storing])
       ∧ viewTotalPlotTension view = 255
       ∧ viewVoteCount view = 65537
       ∧ avgPlotTension view = 255).
Proof.
  intros Hh Hn.
  destruct (house_store n st env Hh) as [Hstore Hget]; [lia|].
  destruct (house_requested n st Hh) as [Hs2 _]; [lia|].
  cbn zeta in *. rewrite Hn, averagePanics_65537 in *.
  assert (run (run st requesting) [storing] =
          afterStore 0 255 263 245 262 (run st requesting)) as ->.
  { unfold run at 1, storing, applyTx, dispatch. cbn [fold_left tx_call tx_env].
    by rewrite Hstore. }
  rewrite sessionAt_afterStore, decide_True, Hs2 by done.
  cbn [voteCount decryptionCompleted withDecryptionCompleted
       withDecryptionRequested withIsActive].
  destruct Hh as (_ & _ & _ & _ & _ & _ & Hcount & _). rewrite Hcount, Hn.
  split; [done|]. split; [done|].
  eexists. split; [exact Hget|]. done.
Qed.

(** What happens to a house of 65536 votes. *)
Lemma house_65536 n st :
  house n st → Z.of_nat n = 65536 →
  voteCount (sessionAt (run st requesting) 0) = 65536
  ∧ exec (storeDecryptedResults 0 255 263 245 262) (mkEnv theater 1470)
         (run st requesting)
    = Revert (Panic 18).
Proof.
  intros Hh Hn.
  destruct (house_store n st (mkEnv theater 1470) Hh) as [Hstore _]; [lia|].
  destruct (house_requested n st Hh) as [Hs2 _]; [lia|].
  cbn zeta in *. rewrite Hn, averagePanics_65536 in *.
  split; [|exact Hstore]. rewrite Hs2.
  destruct Hh as (_ & _ & _ & _ & _ & _ & Hcount & _).
  cbn [voteCount withDecryptionRequested withIsActive]. by rewrite Hcount.
Qed.

(** C7: [getDecryptedResults] divides the totals by [uint16(voteCount)], the
    vote count cut to 16 bits, not by [voteCount]. In the state reached when
    65537 addresses have voted and the creator has stored a plot-tension total
    of 255, the call returns the average 255 = 255 / 1, where the total
    divided by the vote count is 255 / 65537 = 0. *)
Theorem average_divides_by_truncated_voteCount :
  (voteCount (sessionAt (run initialState soldOut) 0) = 65537
   ∧ decryptionCompleted (sessionAt (run initialState soldOut) 0) = true
   ∧ ∃ view,
       getDecryptedResults 0 (mkEnv alice 5000) (run initialState soldOut)
       = Ok (view, run initialState soldOut)
       ∧ viewTotalPlotTension view = 255
       ∧ viewVoteCount view = 65537
       ∧ avgPlotTension view = 255)
  ∧ 255 / 65537 = 0.
Proof.
  split; [|reflexivity].
  unfold soldOut. rewrite run_cons, <- createdState_eq, !run_app.
  apply (house_65537 (Z.to_nat 65537)).
  - apply house_sold. lia.
  - lia.
Qed.

(** With 65536 votes the low 16 bits of the vote count are zero: the guarded
    division of [storeDecryptedResults] divides by zero, and the results of
    such a session can never be stored. *)
Lemma store_panics_at_65536_votes :
  voteCount (sessionAt (run initialState nearlySoldOut) 0) = 65536
  ∧ exec (storeDecryptedResults 0 255 263 245 262) (mkEnv theater 1470)
         (run initialState nearlySoldOut)
    = Revert (Panic 18).
Proof.
  unfold nearlySoldOut. rewrite run_cons, <- createdState_eq, !run_app.
  apply (house_65536 (Z.to_nat 65536)).
  - apply house_sold. lia.
  - lia.
Qed.

(** Below 65536 votes the cut changes nothing: [getDecryptedResults] fails
    until the results are stored, then returns the stored totals and their
    quotients by the vote count, rounded down, and zero averages for a zero
    vote count. *)
Lemma getDecryptedResults_below_65536 id env st :
  let s := sessionAt st id in
  let r := resultsAt st id in
  (decryptionCompleted s = false →
   ∃ e, getDecryptedResults id env st = Revert e)
  ∧ (startTime s ≠ 0 → decryptionCompleted s = true →
     0 ≤ voteCount s < 65536 →
     let avg total := if bool_decide (voteCount s = 0) then 0
                      else total / voteCount s in
     getDecryptedResults id env st =
     Ok (mkResultsView (totalPlotTension r) (totalPerformance r)
           (totalStageDesign r) (totalPacing r)
           (avg (totalPlotTension r)) (avg (totalPerformance r))
           (avg (totalStageDesign r)) (avg (totalPacing r))
           (voteCount s), st)).
Proof.
  cbn zeta. rewrite getDecryptedResults_eq. cbn zeta. split.
  - intros ->. cbn [negb]. case_bool_decide; eauto.
  - intros Hex -> Hsmall. rewrite bool_decide_eq_false_2 by done. cbn [negb].
    unfold averagePanics, averageValue.
    rewrite to_uint16_small by done.
    repeat case_bool_decide; cbn [andb]; try lia; done.
Qed.

Example average_of_three_votes :
  ∃ view,
    getDecryptedResults 0 (mkEnv alice 5000) storedState = Ok (view, storedState)
    ∧ viewTotalPlotTension view = 255 ∧ viewVoteCount view = 3
    ∧ avgPlotTension view = 85.
Proof.
  destruct (getDecryptedResults 0 (mkEnv alice 5000) storedState)
    as [[view st]|] eqn:E; revert E; vm_compute; intros E; [|discriminate].
  injection E as <- <-. eexists. by repeat split.
Qed.

(** * Further properties of the contract *)

(** ** Session ids *)

Lemma nextSessionId_applyTx st tx :
  _nextSessionId (applyTx st tx) =
  _nextSessionId st + Z.of_nat (if creates st tx then 1 else 0).
Proof.
  destruct tx as [env c].
  destruct c; unfold applyTx, creates, dispatch; cbn [tx_call tx_env];
    match goal with
    | |- context [exec ?m ?e ?s] => destruct (exec m e s) as [st'|] eqn:Hok
    end; try (cbn; lia).
  - apply createSession_Ok in Hok as (_ & ->). cbn. lia.
  - apply submitVote_Ok in Hok as (_ & _ & _ & _ & _ & _ & _ & _ & ->).
    cbn. lia.
  - apply authorizeTheater_Ok in Hok as (_ & _ & ->). cbn. lia.
  - apply requestDecryption_Ok in Hok as (_ & _ & _ & _ & _ & ->). cbn. lia.
  - apply endSession_Ok in Hok as (_ & _ & ->). cbn. lia.
  - apply storeDecryptedResults_Ok in Hok as (_ & _ & _ & _ & _ & ->).
    cbn. lia.
Qed.

Lemma nextSessionId_run txs st :
  _nextSessionId (run st txs) = _nextSessionId st + Z.of_nat (creations st txs).
Proof.
  revert st. induction txs as [|tx txs IH]; intros st; [simpl; lia|].
  cbn [run fold_left creations]. fold (run (applyTx st tx) txs).
  rewrite IH, nextSessionId_applyTx. lia.
Qed.

(** X1: ids are handed out in sequence from zero: after any history
    [getTotalSessions] is the number of [createSession] calls that succeeded,
    and that number is the id the next successful [createSession] returns. *)
Theorem getTotalSessions_counts_creations txs env :
  let st := run initialState txs in
  getTotalSessions env st = Ok (Z.of_nat (creations initialState txs), st)
  ∧ ∀ t v start stop env' id st',
      createSession t v start stop env' st = Ok (id, st') →
      id = Z.of_nat (creations initialState txs)
      ∧ getTotalSessions env st' = Ok (id + 1, st').
Proof.
  cbn zeta.
  assert (_nextSessionId (run initialState txs) =
          Z.of_nat (creations initialState txs)) as Hn.
  { rewrite nextSessionId_run. cbn. lia. }
  split.
  - unfold getTotalSessions, bind, get, ret. by rewrite Hn.
  - intros t v start stop env' id st'. rewrite createSession_eq.
    case_bool_decide; [done|]. intros [= <- <-].
    split; [done|]. reflexivity.
Qed.

Lemma getTotalSessions_counts_creations_witness :
  ∃ st',
    createSession "Macbeth" "Cellar" 2000 5000 (mkEnv bob 1500) votedState
    = Ok (1, st')
    ∧ getTotalSessions (mkEnv alice 1600) st' = Ok (2, st').
Proof.
  destruct (getTotalSessions_counts_creations threeVotes (mkEnv alice 1600))
    as [_ Hnext].
  unfold votedState.
  destruct (createSession "Macbeth" "Cellar" 2000 5000 (mkEnv bob 1500)
              (run initialState threeVotes)) as [[id st']|] eqn:E.
  - destruct (Hnext "Macbeth" "Cellar" 2000 5000 (mkEnv bob 1500) id st' E)
      as [Hid Htotal].
    assert (Z.of_nat (creations initialState threeVotes) = 1) as Hone
      by (vm_compute; reflexivity).
    rewrite Hone in Hid. subst id. exists st'. split; [reflexivity|].
    exact Htotal.
  - exfalso. revert E. rewrite createSession_eq.
    assert (_nextSessionId (run initialState threeVotes) = 1) as ->
      by (vm_compute; reflexivity).
    vm_compute. discriminate.
Defined.

(** ** Sessions do not interfere *)

Lemma resultsAt_applyTx st tx id :
  target st (tx_call tx) ≠ id →
  resultsAt (applyTx st tx) id = resultsAt st id.
Proof.
  intros Hne. tx_cases tx; try done. cbn [target] in Hne.
  by rewrite resultsAt_afterStore, decide_False.
Qed.

(** X2: a transaction changes nothing of the sessions it is not about: their
    record, their has-voted flags, their authorisations and their stored
    results stay as they are. *)
Theorem sessions_are_isolated st tx id :
  target st (tx_call tx) ≠ id →
  let st' := applyTx st tx in
  sessionAt st' id = sessionAt st id
  ∧ resultsAt st' id = resultsAt st id
  ∧ (∀ a, hasVotedFlag st' id a = hasVotedFlag st id a)
  ∧ (∀ a, authorizedFlag st' id a = authorizedFlag st id a).
Proof.
  intros Hne. cbn zeta. split; [|split; [by apply resultsAt_applyTx|]].
  - tx_cases tx; cbn [target] in Hne; after_reads; case_ids; done.
  - unfold hasVotedFlag, authorizedFlag.
    tx_cases tx; cbn [target] in Hne; try done; split; intros a; try done;
      apply bool_decide_ext;
      cbn [afterCreate afterVote afterAuthorize _hasVoted _authorizedTheaters];
      rewrite elem_of_union, elem_of_singleton; naive_solver.
Qed.

Lemma sessions_are_isolated_witness :
  sessionAt (applyTx votedState (mkTx (mkEnv bob 1500)
               (CreateSession "Macbeth" "Cellar" 2000 5000))) 0
  = sessionAt votedState 0.
Proof.
  apply (sessions_are_isolated votedState
           (mkTx (mkEnv bob 1500) (CreateSession "Macbeth" "Cellar" 2000 5000))).
  vm_compute. discriminate.
Defined.

(** ** The order of the flags *)

Lemma lifecycle_initial : lifecycle initialState.
Proof. intros id. cbn. split; discriminate. Qed.

Lemma lifecycle_applyTx st tx : lifecycle st → lifecycle (applyTx st tx).
Proof.
  intros Hl id. pose proof (Hl id) as [Hdone Hreq]. cbn zeta in *.
  unfold MIN_VOTES_FOR_DECRYPTION in *.
  tx_cases tx; after_reads; case_ids; try done;
    cbn [decryptionCompleted decryptionRequested voteCount votedSession
         withVoteCount withAggregates withIsActive withMetadata
         withDecryptionRequested withDecryptionCompleted];
    try (split; [tauto|intros; lia]); try tauto.
  - split; [tauto|]. intros Hvotes. apply Hreq in Hvotes. lia.
  - unfold MIN_VOTES_FOR_DECRYPTION in *. split; [done|]. intros _. lia.
Qed.

Lemma reachable_lifecycle st : reachable st → lifecycle st.
Proof.
  apply reachable_ind; [apply lifecycle_initial|].
  intros ? ? _. apply lifecycle_applyTx.
Qed.

(** X3: in every reachable state a session whose results are completed had
    its decryption requested, and a session whose decryption was requested
    has at least one vote; so [getDecryptedResults] never returns a zero vote
    count, and the zero branch of its averages is never taken. *)
Theorem results_need_request_and_votes st id :
  reachable st →
  let s := sessionAt st id in
  (decryptionCompleted s = true → decryptionRequested s = true)
  ∧ (decryptionRequested s = true → 1 ≤ voteCount s)
  ∧ (∀ env view st',
       getDecryptedResults id env st = Ok (view, st') →
       1 ≤ viewVoteCount view).
Proof.
  intros Hr. destruct (reachable_lifecycle st Hr id) as [Hdone Hreq].
  cbn zeta in *. split; [done|]. split; [done|].
  intros env view st'. rewrite getDecryptedResults_eq. cbn zeta.
  repeat guard_cases; try discriminate. intros [= <- <-].
  cbn [viewVoteCount]. clean_guards. tauto.
Qed.

Lemma results_need_request_and_votes_witness :
  decryptionRequested (sessionAt storedState 0) = true
  ∧ 1 ≤ voteCount (sessionAt storedState 0).
Proof.
  destruct (results_need_request_and_votes storedState 0) as (Hdone & Hreq & _).
  - exists (threeVotes ++ requesting ++ [storing]). vm_compute. reflexivity.
  - assert (decryptionRequested (sessionAt storedState 0) = true) as H.
    { apply Hdone. vm_compute. reflexivity. }
    split; [exact H|exact (Hreq H)].
Defined.

(** ** Creators and authorisations *)

Lemma creatorAuthorized_initial : creatorAuthorized initialState.
Proof. intros id [? ?]. cbn in *. lia. Qed.

Lemma creatorAuthorized_applyTx st tx :
  fresh st → creatorAuthorized st → creatorAuthorized (applyTx st tx).
Proof.
  intros Hf Hc id Ha'.
  destruct (decide (allocated st id)) as [Ha|Hnew].
  - destruct (metadata_applyTx st tx id Ha) as (_ & _ & ->).
    apply authorized_applyTx, Hc, Ha.
  - revert Ha'. unfold allocated in *. destruct Hf as [Hpos _].
    tx_cases tx; try done.
    cbn [afterCreate _nextSessionId _authorizedTheaters]. intros Ha'.
    assert (id = _nextSessionId st) as -> by lia.
    rewrite sessionAt_afterCreate, decide_True by done.
    cbn [theaterCompany withAggregates withIsActive withMetadata].
    set_solver.
Qed.

Lemma reachable_creatorAuthorized st : reachable st → creatorAuthorized st.
Proof.
  intros Hr. induction Hr as [|st tx Hr IH] using reachable_ind.
  - apply creatorAuthorized_initial.
  - apply creatorAuthorized_applyTx; [by apply reachable_fresh|done].
Qed.

(** X4: the creator of a session is authorised for it from its creation on,
    in every reachable state: no call revokes an authorisation. *)
Theorem creator_is_always_authorized st id env :
  reachable st → allocated st id →
  isAuthorized id (theaterCompany (sessionAt st id)) env st = Ok (true, st).
Proof.
  intros Hr Ha. unfold isAuthorized, bind, get, ret, authorizedFlag.
  rewrite bool_decide_eq_true_2; [done|].
  by apply reachable_creatorAuthorized.
Qed.

Lemma creator_is_always_authorized_witness :
  isAuthorized 0 (theaterCompany (sessionAt storedState 0))
               (mkEnv alice 5000) storedState
  = Ok (true, storedState).
Proof.
  apply creator_is_always_authorized.
  - exists (threeVotes ++ requesting ++ [storing]). vm_compute. reflexivity.
  - vm_compute. split; [discriminate|reflexivity].
Defined.

(** X5: [authorizeTheater] succeeds exactly for the creator of an existing
    session, at any time and in any phase of the session; the address it
    authorises stays authorised after any history, and no other address
    becomes authorised by the call. *)
Theorem authorization_is_permanent id a env st :
  (( ∃ st1, exec (authorizeTheater id a) env st = Ok st1)
   ↔ startTime (sessionAt st id) ≠ 0
     ∧ msg_sender env = theaterCompany (sessionAt st id))
  ∧ ∀ st1,
      exec (authorizeTheater id a) env st = Ok st1 →
      (∀ txs env',
         isAuthorized id a env' (run st1 txs) = Ok (true, run st1 txs))
      ∧ (∀ id' a', (id', a') ≠ (id, a) →
           authorizedFlag st1 id' a' = authorizedFlag st id' a')
      ∧ (∀ id', sessionAt st1 id' = sessionAt st id').
Proof.
  split.
  - unfold exec. rewrite authorizeTheater_eq. cbn zeta.
    repeat case_bool_decide; split; try naive_solver.
    all: intros [? ?]; try done; eauto.
  - intros st1 (_ & _ & ->)%authorizeTheater_Ok. split; [|split].
    + intros txs env'. unfold isAuthorized, bind, get, ret, authorizedFlag.
      rewrite bool_decide_eq_true_2; [done|]. apply authorized_run.
      unfold afterAuthorize; cbn [_authorizedTheaters]. set_solver.
    + intros id' a' Hne. unfold authorizedFlag. apply bool_decide_ext.
      unfold afterAuthorize; cbn [_authorizedTheaters].
      rewrite elem_of_union, elem_of_singleton. naive_solver.
    + intros id'. apply sessionAt_afterAuthorize.
Qed.

Lemma authorization_is_permanent_witness :
  isAuthorized 0 bob (mkEnv alice 5000) (run bobAuthorized afterBob)
  = Ok (true, run bobAuthorized afterBob).
Proof.
  destruct (authorization_is_permanent 0 bob (mkEnv theater 1490) storedState)
    as [_ Hperm].
  destruct (Hperm bobAuthorized) as (Hstays & _).
  - vm_compute. reflexivity.
  - exact (Hstays afterBob (mkEnv alice 5000)).
Defined.

(** X6: only the creator manages a session. After a session was created,
    and whatever happened since, [endSession] and [authorizeTheater] by any
    other address revert with [OnlyTheaterCompany] and change nothing, while
    both still succeed for the creator. *)
Theorem only_creator_manages t v start stop env st id st1 :
  fresh st → start ≠ 0 →
  createSession t v start stop env st = Ok (id, st1) →
  ∀ txs env',
    let st2 := run st1 txs in
    (msg_sender env' ≠ msg_sender env →
     exec (endSession id) env' st2 = Revert OnlyTheaterCompany
     ∧ applyTx st2 (mkTx env' (EndSession id)) = st2
     ∧ ∀ a, exec (authorizeTheater id a) env' st2 = Revert OnlyTheaterCompany
            ∧ applyTx st2 (mkTx env' (AuthorizeTheater id a)) = st2)
    ∧ (msg_sender env' = msg_sender env →
       exec (endSession id) env' st2 = Ok (afterEnd id st2)
       ∧ ∀ a, exec (authorizeTheater id a) env' st2
              = Ok (afterAuthorize id a st2)).
Proof.
  intros Hf Hstart. rewrite createSession_eq.
  case_bool_decide; [done|]. intros [= <- <-] txs env'. cbn zeta.
  set (st1 := afterCreate t v start stop (msg_sender env) st).
  assert (allocated st1 (_nextSessionId st)) as Ha.
  { destruct Hf. unfold allocated, st1, afterCreate; cbn [_nextSessionId]. lia. }
  assert (fresh st1) as Hf1.
  { replace st1 with (applyTx st (mkTx env (CreateSession t v start stop)));
      [by apply fresh_applyTx|].
    unfold applyTx. rewrite dispatch_eq. cbn [tx_call tx_env].
    by rewrite bool_decide_eq_false_2. }
  assert (sessionAt st1 (_nextSessionId st) =
          withAggregates (asEuint16 0) (asEuint16 0) (asEuint16 0) (asEuint16 0)
            (withIsActive true
               (withMetadata t v start stop (msg_sender env)
                  (sessionAt st (_nextSessionId st))))) as Hs1.
  { unfold st1. by rewrite sessionAt_afterCreate, decide_True. }
  destruct (existing_run st1 txs (_nextSessionId st) Hf1)
    as (Hst & _ & Hwho & _).
  { by rewrite Hs1. }
  rewrite Hs1 in Hst, Hwho.
  cbn [startTime theaterCompany withAggregates withIsActive withMetadata]
    in Hst, Hwho.
  unfold applyTx, dispatch, exec; cbn [tx_call tx_env].
  rewrite endSession_eq. cbn zeta.
  rewrite Hst, Hwho, (bool_decide_eq_false_2 (start = 0)) by done.
  split; intros Hsender.
  - rewrite bool_decide_eq_false_2 by done. split; [done|]. split; [done|].
    intros a. rewrite authorizeTheater_eq. cbn zeta.
    rewrite Hst, Hwho, (bool_decide_eq_false_2 (start = 0)) by done.
    by rewrite bool_decide_eq_false_2.
  - rewrite bool_decide_eq_true_2 by done. split; [done|].
    intros a. rewrite authorizeTheater_eq. cbn zeta.
    rewrite Hst, Hwho, (bool_decide_eq_false_2 (start = 0)) by done.
    by rewrite bool_decide_eq_true_2.
Qed.

Lemma only_creator_manages_witness :
  exec (endSession 0) (mkEnv alice 1500)
       (run createdState (tail threeVotes))
  = Revert OnlyTheaterCompany.
Proof.
  assert (createSession "Hamlet Preview" "Small Theater" 1000 4600
            (mkEnv theater 1000) initialState = Ok (0, createdState)) as Hc
    by (vm_compute; reflexivity).
  assert (1000 ≠ 0) as Hstart by discriminate.
  destruct (only_creator_manages "Hamlet Preview" "Small Theater" 1000 4600
              (mkEnv theater 1000) initialState 0 createdState fresh_initial
              Hstart Hc (tail threeVotes) (mkEnv alice 1500))
    as [Hother _].
  apply Hother. vm_compute. discriminate.
Defined.

(** ** Closed sessions *)

Lemma inactive_applyTx st tx id :
  allocated st id → isActive (sessionAt st id) = false →
  isActive (sessionAt (applyTx st tx) id) = false.
Proof.
  unfold allocated. intros Ha Hoff.
  tx_cases tx; after_reads; case_ids; try done; lia.
Qed.

Lemma inactive_run st txs id :
  allocated st id → isActive (sessionAt st id) = false →
  isActive (sessionAt (run st txs) id) = false.
Proof.
  revert st. induction txs as [|tx txs IH]; intros st Ha Hoff; [done|].
  simpl. apply IH; [by apply allocated_applyTx|by apply inactive_applyTx].
Qed.

Lemma voteCount_inactive_applyTx st tx id :
  allocated st id → isActive (sessionAt st id) = false →
  voteCount (sessionAt (applyTx st tx) id) = voteCount (sessionAt st id).
Proof.
  unfold allocated. intros Ha Hoff.
  tx_cases tx; after_reads; case_ids; try done; try lia; congruence.
Qed.

Lemma voteCount_inactive_run st txs id :
  allocated st id → isActive (sessionAt st id) = false →
  voteCount (sessionAt (run st txs) id) = voteCount (sessionAt st id).
Proof.
  revert st. induction txs as [|tx txs IH]; intros st Ha Hoff; [done|].
  cbn [run fold_left]. fold (run (applyTx st tx) txs).
  rewrite IH; [by apply voteCount_inactive_applyTx
              |by apply allocated_applyTx|by apply inactive_applyTx].
Qed.

(** X7: a session that was ended stays ended: no call sets [isActive] again,
    and after any history every [submitVote] on the session reverts with
    [SessionNotActive], whoever votes, whenever and with whatever inputs. *)
Theorem ended_session_stays_closed id env st st1 :
  fresh st →
  exec (endSession id) env st = Ok st1 →
  ∀ txs env' i1 p1 i2 p2 i3 p3 i4 p4 h,
    let st2 := run st1 txs in
    isActive (sessionAt st2 id) = false
    ∧ exec (submitVote id i1 p1 i2 p2 i3 p3 i4 p4 h) env' st2
      = Revert SessionNotActive
    ∧ voteCount (sessionAt st2 id) = voteCount (sessionAt st id).
Proof.
  intros Hf (Hex & _ & ->)%endSession_Ok txs env' i1 p1 i2 p2 i3 p3 i4 p4 h.
  cbn zeta. set (st1 := afterEnd id st).
  assert (allocated st id) as Ha by by apply fresh_allocated.
  assert (allocated st1 id) as Ha1 by exact Ha.
  assert (sessionAt st1 id = withIsActive false (sessionAt st id)) as Hs1.
  { unfold st1. by rewrite sessionAt_afterEnd, decide_True. }
  assert (isActive (sessionAt (run st1 txs) id) = false) as Hoff.
  { apply inactive_run; [done|]. by rewrite Hs1. }
  destruct (metadata_run st1 txs id Ha1) as [Hst _]. rewrite Hs1 in Hst.
  cbn [startTime withIsActive] in Hst.
  split; [done|]. split.
  - unfold exec. rewrite submitVote_eq. cbn zeta.
    by rewrite Hst, Hoff, bool_decide_eq_false_2.
  - rewrite voteCount_inactive_run; [by rewrite Hs1|done|by rewrite Hs1].
Qed.

Lemma ended_session_stays_closed_witness :
  exec (submitVote 0 (ExternalEuint16 1 70) [1] (ExternalEuint16 2 60) [2]
          (ExternalEuint16 3 50) [3] (ExternalEuint16 4 40) [4] 0)
       (mkEnv 5 1500)
       (run (applyTx votedState (mkTx (mkEnv theater 1450) (EndSession 0)))
            afterBob)
  = Revert SessionNotActive.
Proof.
  destruct (ended_session_stays_closed 0 (mkEnv theater 1450) votedState
              (applyTx votedState (mkTx (mkEnv theater 1450) (EndSession 0))))
    with (txs := afterBob) (env' := mkEnv 5 1500)
         (i1 := ExternalEuint16 1 70) (p1 := [1])
         (i2 := ExternalEuint16 2 60) (p2 := [2])
         (i3 := ExternalEuint16 3 50) (p3 := [3])
         (i4 := ExternalEuint16 4 40) (p4 := [4]) (h := 0)
    as (_ & Hrev & _).
  - exact (fresh_run initialState threeVotes fresh_initial).
  - vm_compute. reflexivity.
  - exact Hrev.
Defined.

(** ** After the request *)

Lemma acl_applyTx st tx x : x ∈ acl st → x ∈ acl (applyTx st tx).
Proof.
  intros Hin. tx_cases tx; try done;
    cbn [afterCreate afterVote afterAuthorize afterRequest afterEnd
         afterStore setSession acl];
    try done; apply elem_of_app; by left.
Qed.

Lemma acl_run st txs x : x ∈ acl st → x ∈ acl (run st txs).
Proof.
  revert st. induction txs as [|tx txs IH]; intros st Hin; [done|].
  simpl. by apply IH, acl_applyTx.
Qed.

Lemma requested_applyTx st tx id :
  allocated st id → decryptionRequested (sessionAt st id) = true →
  decryptionRequested (sessionAt (applyTx st tx) id) = true.
Proof.
  unfold allocated. intros Ha Hreq.
  tx_cases tx; after_reads; case_ids; try done; lia.
Qed.

Lemma closedAt_applyTx t id st tx :
  closedAt t id st → t ≤ block_timestamp (tx_env tx) →
  closedAt t id (applyTx st tx)
  ∧ tally (sessionAt (applyTx st tx) id) = tally (sessionAt st id)
  ∧ ∀ a, hasVotedFlag (applyTx st tx) id a = hasVotedFlag st id a.
Proof.
  intros [Ha Hclosed] Ht.
  pose proof (allocated_applyTx st tx id Ha) as Ha'.
  destruct (metadata_applyTx st tx id Ha) as (_ & Hend & _).
  split; [split; [done|]|].
  - rewrite Hend. destruct Hclosed as [Hoff|Hlate]; [left|by right].
    by apply inactive_applyTx.
  - clear Ha' Hend. unfold allocated in Ha. unfold hasVotedFlag.
    tx_cases tx; cbn [tx_env block_timestamp] in Ht;
      after_reads; case_ids; try done; try lia.
    all: try (destruct Hclosed; [congruence|lia]).
    split; [done|]. intros a. apply bool_decide_ext.
    unfold afterVote; cbn [_hasVoted].
    rewrite elem_of_union, elem_of_singleton. naive_solver.
Qed.

Lemma closedAt_run t id txs st :
  closedAt t id st → notBefore t txs →
  closedAt t id (run st txs)
  ∧ tally (sessionAt (run st txs) id) = tally (sessionAt st id)
  ∧ ∀ a, hasVotedFlag (run st txs) id a = hasVotedFlag st id a.
Proof.
  revert st. induction txs as [|tx txs IH]; intros st Hc Hts; [done|].
  apply Forall_cons in Hts as [Ht Hts].
  destruct (closedAt_applyTx t id st tx Hc Ht) as (Hc' & Htally & Hflags).
  cbn [run fold_left]. fold (run (applyTx st tx) txs).
  destruct (IH (applyTx st tx) Hc' Hts) as (? & -> & Hflags').
  split; [done|]. split; [done|]. intros a. by rewrite Hflags'.
Qed.

Lemma requested_run st txs id :
  allocated st id → decryptionRequested (sessionAt st id) = true →
  decryptionRequested (sessionAt (run st txs) id) = true.
Proof.
  revert st. induction txs as [|tx txs IH]; intros st Ha Hreq; [done|].
  simpl. apply IH; [by apply allocated_applyTx|by apply requested_applyTx].
Qed.

(** X8: what is decrypted is final. When [requestDecryption] has succeeded
    and time does not run backwards, no vote is accepted on the session any
    more: its vote count, its four accumulators and its has-voted flags stay
    as they were at the request, and the requester keeps the permission it
    was granted on exactly these accumulators. *)
Theorem requested_tally_is_final id env st st1 :
  fresh st →
  exec (requestDecryption id) env st = Ok st1 →
  ∀ txs, notBefore (block_timestamp env) txs →
    let st2 := run st1 txs in
    tally (sessionAt st2 id) = tally (sessionAt st id)
    ∧ (∀ a, hasVotedFlag st2 id a = hasVotedFlag st id a)
    ∧ decryptionRequested (sessionAt st2 id) = true
    ∧ ∀ d, (aggregate d (sessionAt st2 id), Account (msg_sender env))
           ∈ acl st2.
Proof.
  intros Hf (Hex & _ & Hclosed & _ & _ & ->)%requestDecryption_Ok txs Hts.
  cbn zeta. set (st1 := afterRequest id (msg_sender env) st).
  assert (allocated st id) as Ha by by apply fresh_allocated.
  assert (sessionAt st1 id = withDecryptionRequested true (sessionAt st id))
    as Hs1.
  { unfold st1. by rewrite sessionAt_afterRequest, decide_True. }
  assert (closedAt (block_timestamp env) id st1) as Hc.
  { split; [exact Ha|]. by rewrite Hs1. }
  destruct (closedAt_run _ _ txs st1 Hc Hts) as (_ & Htally & Hflags).
  assert (tally (sessionAt (run st1 txs) id) = tally (sessionAt st id)) as Ht.
  { by rewrite Htally, Hs1. }
  split; [done|]. split; [intros a; by rewrite Hflags|]. split.
  - apply requested_run; [exact Ha|]. by rewrite Hs1.
  - intros d. apply acl_run.
    assert (aggregate d (sessionAt (run st1 txs) id)
            = aggregate d (sessionAt st id)) as ->.
    { unfold tally in Ht. injection Ht as _ ? ? ? ?. by destruct d. }
    unfold st1, afterRequest; cbn [acl]. apply elem_of_app. right.
    destruct d; cbn [aggregate]; set_solver.
Qed.

Lemma requested_tally_is_final_witness :
  tally (sessionAt (run requestedState
                      [mkTx (mkEnv 5 1500) (ballot 0 70 60 50 40)]) 0)
  = tally (sessionAt endedState 0).
Proof.
  destruct (requested_tally_is_final 0 (mkEnv theater 1460) endedState
              requestedState)
    with (txs := [mkTx (mkEnv 5 1500) (ballot 0 70 60 50 40)])
    as (Htally & _).
  - exact (fresh_run initialState _ fresh_initial).
  - vm_compute. reflexivity.
  - repeat constructor. vm_compute. discriminate.
  - exact Htally.
Defined.

(** X9: the decryption of a session can be requested only if somebody voted
    in it. In a reachable state, a request on a session without voters never
    succeeds, and reverts with [InsufficientVotes] when nothing else is
    wrong with it; on a closed session with a voter, not requested before, the
    request of an authorised caller succeeds. *)
Theorem requestDecryption_needs_a_voter st id env :
  reachable st →
  let s := sessionAt st id in
  let ready :=
    startTime s ≠ 0 ∧ authorizedFlag st id (msg_sender env) = true
    ∧ (isActive s = false ∨ endTime s < block_timestamp env) in
  (voters st id = ∅ →
   (∀ st', exec (requestDecryption id) env st ≠ Ok st')
   ∧ (ready → exec (requestDecryption id) env st = Revert InsufficientVotes))
  ∧ (voters st id ≠ ∅ → ready → decryptionRequested s = false →
     exec (requestDecryption id) env st
     = Ok (afterRequest id (msg_sender env) st)).
Proof.
  intros Hr. cbn zeta. pose proof (reachable_counted st Hr id) as Hcount.
  unfold exec. rewrite requestDecryption_eq. cbn zeta.
  unfold MIN_VOTES_FOR_DECRYPTION. split.
  - intros Hnone. rewrite Hnone, size_empty in Hcount. rewrite Hcount.
    split.
    + intros st'. repeat guard_cases; discriminate.
    + intros (Hex & -> & Hclosed). rewrite bool_decide_eq_false_2 by done.
      cbn [negb].
      destruct Hclosed as [->|Hlate]; cbn [andb]; [done|].
      rewrite (bool_decide_eq_false_2 (_ ≤ _)) by lia.
      by rewrite andb_false_r.
  - intros Hsome (Hex & -> & Hclosed) ->.
    assert (size (voters st id) ≠ 0%nat) as Hsize.
    { intros Hz. by apply size_empty_iff, leibniz_equiv in Hz. }
    rewrite bool_decide_eq_false_2 by done. cbn [negb].
    rewrite (bool_decide_eq_false_2 (_ < 1)) by lia.
    destruct Hclosed as [->|Hlate]; cbn [andb]; [done|].
    rewrite (bool_decide_eq_false_2 (_ ≤ _)) by lia.
    by rewrite andb_false_r.
Qed.

Lemma requestDecryption_needs_a_voter_witness :
  exec (requestDecryption 0) (mkEnv theater 5000) createdState
  = Revert InsufficientVotes.
Proof.
  destruct (requestDecryption_needs_a_voter createdState 0 (mkEnv theater 5000))
    as [Hnone _].
  - by exists [hamlet].
  - destruct Hnone as [_ Hrev].
    + apply leibniz_equiv, size_empty_iff. vm_compute. reflexivity.
    + apply Hrev. split; [vm_compute; discriminate|].
      split; [vm_compute; reflexivity|]. right. vm_compute. reflexivity.
Defined.

(** X10: the decryption of a session is requested at most once. After a
    successful [requestDecryption], and whatever happened since, every
    further request on the session reverts and changes nothing; for an
    authorised caller on a session closed by flag or by time the error is
    [DecryptionAlreadyRequested]. *)
Theorem requestDecryption_once id env st st1 :
  fresh st →
  exec (requestDecryption id) env st = Ok st1 →
  ∀ txs env',
    let st2 := run st1 txs in
    let s2 := sessionAt st2 id in
    (∃ e, exec (requestDecryption id) env' st2 = Revert e)
    ∧ applyTx st2 (mkTx env' (RequestDecryption id)) = st2
    ∧ (authorizedFlag st2 id (msg_sender env') = true →
       isActive s2 = false ∨ endTime s2 < block_timestamp env' →
       exec (requestDecryption id) env' st2
       = Revert DecryptionAlreadyRequested).
Proof.
  intros Hf (Hex & _ & _ & Hmin & _ & ->)%requestDecryption_Ok txs env'.
  cbn zeta. set (st1 := afterRequest id (msg_sender env) st).
  assert (allocated st1 id) as Ha by by apply (fresh_allocated st).
  assert (sessionAt st1 id = withDecryptionRequested true (sessionAt st id))
    as Hs1.
  { unfold st1. by rewrite sessionAt_afterRequest, decide_True. }
  assert (decryptionRequested (sessionAt (run st1 txs) id) = true) as Hreq.
  { apply requested_run; [done|]. by rewrite Hs1. }
  assert (∃ e, exec (requestDecryption id) env' (run st1 txs) = Revert e)
    as [e He].
  { unfold exec. rewrite requestDecryption_eq. cbn zeta. rewrite Hreq.
    repeat guard_cases; eauto. }
  split; [by exists e|]. split.
  - unfold applyTx, dispatch; cbn [tx_call tx_env]. by rewrite He.
  - intros Hauth Hclosed. clear He. unfold exec.
    rewrite requestDecryption_eq. cbn zeta. rewrite Hreq, Hauth. cbn [negb].
    destruct (metadata_run st1 txs id Ha) as [Hst _].
    rewrite Hs1 in Hst. cbn [startTime withDecryptionRequested] in Hst.
    rewrite bool_decide_eq_false_2 by congruence.
    assert (isActive (sessionAt (run st1 txs) id)
            && bool_decide (block_timestamp env'
                            ≤ endTime (sessionAt (run st1 txs) id)) = false)
      as ->.
    { destruct Hclosed as [->|Hlate]; [done|].
      rewrite (bool_decide_eq_false_2 (_ ≤ _)) by lia. apply andb_false_r. }
    rewrite bool_decide_eq_false_2; [done|].
    rewrite (voteCount_run PlotTension), Hs1.
    cbn [voteCount withDecryptionRequested]. lia.
Qed.

Lemma requestDecryption_once_witness :
  exec (requestDecryption 0) (mkEnv theater 1500) (run requestedState [storing])
  = Revert DecryptionAlreadyRequested.
Proof.
  destruct (requestDecryption_once 0 (mkEnv theater 1460) endedState
              requestedState)
    with (txs := [storing]) (env' := mkEnv theater 1500)
    as (_ & _ & Hagain).
  - exact (fresh_run initialState _ fresh_initial).
  - vm_compute. reflexivity.
  - apply Hagain; [vm_compute; reflexivity|]. left. vm_compute. reflexivity.
Defined.

(** ** Permissions on the accumulators *)

Lemma selfAllowed_initial : selfAllowed initialState.
Proof. intros id d [? ?]. cbn in *. lia. Qed.

Lemma selfAllowed_applyTx st tx :
  fresh st → selfAllowed st → selfAllowed (applyTx st tx).
Proof.
  intros Hf Hs id d Ha'.
  assert (allocated st id →
          (aggregate d (sessionAt st id), This) ∈ acl (applyTx st tx)) as Hold.
  { intros Ha. by apply acl_applyTx, Hs. }
  revert Ha' Hold. unfold allocated. destruct Hf as [Hpos _].
  tx_cases tx; try (intros Ha' Hold; by apply Hold);
    after_reads; case_ids; intros Ha' Hold;
    try (by destruct d; apply Hold);
    cbn [afterCreate afterVote _nextSessionId acl] in *.
  - apply elem_of_app. right. destruct d;
      cbn [aggregate withAggregates aggregatedPlotTension aggregatedPerformance
           aggregatedStageDesign aggregatedPacing]; set_solver.
  - apply Hold. lia.
  - apply elem_of_app. right. destruct d; cbn [aggregate]; set_solver.
Qed.

Lemma reachable_selfAllowed st : reachable st → selfAllowed st.
Proof.
  intros Hr. induction Hr as [|st tx Hr IH] using reachable_ind.
  - apply selfAllowed_initial.
  - apply selfAllowed_applyTx; [by apply reachable_fresh|done].
Qed.

(** X11: the contract's permission follows the accumulators. In every
    reachable state the four handles that [getEncryptedAggregates] returns
    are handles the contract itself was granted the use of: each vote
    replaces the accumulators and re-grants the contract the new ones. *)
Theorem contract_may_use_accumulators st id env p f sd c st' :
  reachable st →
  getEncryptedAggregates id env st = Ok ((p, f, sd, c), st') →
  st' = st
  ∧ (p, This) ∈ acl st ∧ (f, This) ∈ acl st
  ∧ (sd, This) ∈ acl st ∧ (c, This) ∈ acl st.
Proof.
  intros Hr. unfold getEncryptedAggregates, bind, get, ret, revertIf, revert.
  case_bool_decide as Hex; [done|]. intros [= <- <- <- <- <-].
  assert (allocated st id) as Ha
    by by apply fresh_allocated; [apply reachable_fresh|].
  pose proof (reachable_selfAllowed st Hr id) as Hs.
  split; [done|].
  split; [exact (Hs PlotTension Ha)|]. split; [exact (Hs Performance Ha)|].
  split; [exact (Hs StageDesign Ha)|exact (Hs Pacing Ha)].
Qed.

Lemma contract_may_use_accumulators_witness :
  (aggregatedPlotTension (sessionAt votedState 0), This) ∈ acl votedState.
Proof.
  destruct (contract_may_use_accumulators votedState 0 (mkEnv alice 1500)
              (aggregatedPlotTension (sessionAt votedState 0))
              (aggregatedPerformance (sessionAt votedState 0))
              (aggregatedStageDesign (sessionAt votedState 0))
              (aggregatedPacing (sessionAt votedState 0)) votedState)
    as (_ & Hp & _).
  - exists threeVotes. reflexivity.
  - unfold getEncryptedAggregates, bind, get, ret, revertIf, revert.
    rewrite bool_decide_eq_false_2; [reflexivity|]. vm_compute. discriminate.
  - exact Hp.
Defined.

(** ** Events *)

Lemma logged_initial : logged initialState.
Proof.
  split; [done|]. split; [done|]. intros id a. cbn. split.
  - set_solver.
  - intros [n Hn]. by apply elem_of_nil in Hn.
Qed.

Lemma count_snoc (f : Event → bool) l ev :
  Z.of_nat (length (List.filter f (l ++ [ev]))) =
  Z.of_nat (length (List.filter f l)) + (if f ev then 1 else 0).
Proof.
  rewrite List.filter_app, length_app. cbn [List.filter].
  destruct (f ev); cbn [length]; lia.
Qed.

Lemma vote_logged_snoc id a l ev :
  (∃ n, VoteSubmitted id a n ∈ l ++ [ev]) ↔
  (∃ n, VoteSubmitted id a n ∈ l) ∨ (∃ n, ev = VoteSubmitted id a n).
Proof.
  split.
  - intros [n [Hn|Hn]%elem_of_app]; [left; by eauto|right].
    apply list_elem_of_singleton in Hn. by eauto.
  - intros [[n Hn]|[n ->]]; exists n; apply elem_of_app;
      [by left|right; by left].
Qed.

Ltac unfold_after :=
  cbn [afterCreate afterVote afterAuthorize afterRequest afterEnd afterStore
       setSession _nextSessionId _hasVoted logs].

Lemma votes_logged_applyTx st tx :
  (∀ id, voteCount (sessionAt st id)
         = Z.of_nat (length (List.filter (isVoteEvent id) (logs st)))) →
  ∀ id, voteCount (sessionAt (applyTx st tx) id)
        = Z.of_nat (length (List.filter (isVoteEvent id)
                              (logs (applyTx st tx)))).
Proof.
  intros Hvotes id. specialize (Hvotes id).
  tx_cases tx; try done; unfold_after; rewrite ?count_snoc;
    cbn [List.filter isVoteEvent app]; after_reads; case_ids;
    try case_bool_decide;
    cbn [voteCount votedSession withVoteCount withAggregates withIsActive
         withMetadata withDecryptionRequested withDecryptionCompleted];
    try done; try lia.
  all: rewrite List.filter_app, length_app;
    cbn [List.filter isVoteEvent length]; lia.
Qed.

Lemma ids_logged_applyTx st tx :
  _nextSessionId st = Z.of_nat (length (List.filter isCreateEvent (logs st))) →
  _nextSessionId (applyTx st tx)
  = Z.of_nat (length (List.filter isCreateEvent (logs (applyTx st tx)))).
Proof.
  intros Hids.
  tx_cases tx; try done; unfold_after; rewrite ?count_snoc;
    cbn [isCreateEvent]; try lia.
  rewrite List.filter_app, length_app. cbn [List.filter isCreateEvent length].
  lia.
Qed.

Lemma voters_logged_applyTx st tx :
  (∀ id a, (id, a) ∈ _hasVoted st ↔ ∃ n, VoteSubmitted id a n ∈ logs st) →
  ∀ id a, (id, a) ∈ _hasVoted (applyTx st tx)
          ↔ ∃ n, VoteSubmitted id a n ∈ logs (applyTx st tx).
Proof.
  intros Hwho id a. specialize (Hwho id a).
  tx_cases tx; try done; unfold_after.
  - change (logs st ++ [?e1; ?e2]) with (logs st ++ ([e1] ++ [e2])).
    rewrite app_assoc, !vote_logged_snoc, Hwho. naive_solver.
  - rewrite vote_logged_snoc, elem_of_union, elem_of_singleton, Hwho.
    naive_solver.
  - rewrite vote_logged_snoc, Hwho. naive_solver.
  - rewrite vote_logged_snoc, Hwho. naive_solver.
  - rewrite vote_logged_snoc, Hwho. naive_solver.
Qed.

Lemma reachable_logged st : reachable st → logged st.
Proof.
  intros Hr. induction Hr as [|st tx Hr (Hv & Hi & Hw)] using reachable_ind.
  - apply logged_initial.
  - split; [by apply votes_logged_applyTx|].
    split; [by apply ids_logged_applyTx|by apply voters_logged_applyTx].
Qed.

(** X12: the events tell the state. In every reachable state the vote count
    of a session is the number of its [VoteSubmitted] events, the number of
    sessions is the number of [SessionCreated] events, and an address has
    its has-voted flag set for a session exactly when a [VoteSubmitted] event
    of that session names it; a reverted call leaves no event. *)
Theorem events_tell_the_state st :
  reachable st →
  (∀ id, voteCount (sessionAt st id)
         = Z.of_nat (length (List.filter (isVoteEvent id) (logs st))))
  ∧ (∀ env, getTotalSessions env st
            = Ok (Z.of_nat (length (List.filter isCreateEvent (logs st))), st))
  ∧ (∀ id a env,
       hasVoted id a env st = Ok (true, st)
       ↔ ∃ n, VoteSubmitted id a n ∈ logs st)
  ∧ (∀ tx e, dispatch (tx_call tx) (tx_env tx) st = Revert e →
             logs (applyTx st tx) = logs st).
Proof.
  intros (Hv & Hi & Hw)%reachable_logged.
  split; [done|]. split; [|split].
  - intros env. unfold getTotalSessions, bind, get, ret. by rewrite Hi.
  - intros id a env. rewrite <- Hw.
    unfold hasVoted, bind, get, ret, hasVotedFlag. split.
    + intros [= H]. by apply bool_decide_eq_true in H.
    + intros H. by rewrite bool_decide_eq_true_2.
  - intros tx e He. unfold applyTx. by rewrite He.
Qed.

Lemma events_tell_the_state_witness :
  voteCount (sessionAt votedState 0)
  = Z.of_nat (length (List.filter (isVoteEvent 0) (logs votedState))).
Proof.
  destruct (events_tell_the_state votedState) as [Hv _].
  - exists threeVotes. reflexivity.
  - exact (Hv 0).
Defined.

(** ** Published results *)

(** X13: what is stored is what is published. A successful
    [storeDecryptedResults] is followed by a [getDecryptedResults] that
    succeeds and returns the four totals as they were passed in, with the
    averages that the [DecryptionCompleted] event announced. The totals are
    taken on trust: the call would have accepted any other four numbers, and
    it leaves the accumulators untouched. *)
Theorem stored_results_are_published id a b c d env st st1 :
  exec (storeDecryptedResults id a b c d) env st = Ok st1 →
  (∃ p f s q,
     logs st1 = logs st ++ [DecryptionCompleted id p f s q]
     ∧ ∀ env', getDecryptedResults id env' st1
               = Ok (mkResultsView a b c d p f s q
                       (voteCount (sessionAt st id)), st1))
  ∧ (∀ a' b' c' d',
       exec (storeDecryptedResults id a' b' c' d') env st
       = Ok (afterStore id a' b' c' d' st))
  ∧ tally (sessionAt st1 id) = tally (sessionAt st id).
Proof.
  intros (Hex & Hauth & Hreq & Hnot & Hpanic & ->)%storeDecryptedResults_Ok.
  cbn zeta in *. split; [|split].
  - eexists _, _, _, _. split; [reflexivity|]. intros env'.
    rewrite getDecryptedResults_eq. cbn zeta.
    rewrite sessionAt_afterStore, resultsAt_afterStore, !decide_True by done.
    cbn [startTime decryptionCompleted voteCount withDecryptionCompleted negb
         totalPlotTension totalPerformance totalStageDesign totalPacing].
    by rewrite bool_decide_eq_false_2, Hpanic.
  - intros a' b' c' d'. unfold exec. rewrite storeDecryptedResults_eq.
    cbn zeta. rewrite bool_decide_eq_false_2, Hauth, Hreq, Hnot, Hpanic by done.
    done.
  - by rewrite sessionAt_afterStore, decide_True.
Qed.

Lemma stored_results_are_published_witness :
  ∃ p f s q,
    getDecryptedResults 0 (mkEnv alice 5000) storedState
    = Ok (mkResultsView 255 263 245 262 p f s q
            (voteCount (sessionAt requestedState 0)), storedState).
Proof.
  destruct (stored_results_are_published 0 255 263 245 262
              (mkEnv theater 1470) requestedState storedState)
    as ((p & f & s & q & _ & Hget) & _).
  - vm_compute. reflexivity.
  - exists p, f, s, q. exact (Hget (mkEnv alice 5000)).
Defined.

(** ** New sessions *)

(** X14: what [createSession] opens. In a reachable state a successful
    [createSession] returns an id no session had, and leaves under it a
    session with the metadata passed in, created by the caller, active, with
    no vote and no voter, neither requested nor completed, whose four
    accumulators decrypt to zero, and for which the creator is authorised;
    the next id is one more. *)
Theorem createSession_opens_a_session t v start stop env st id st1 :
  reachable st →
  createSession t v start stop env st = Ok (id, st1) →
  let s := sessionAt st1 id in
  ¬ allocated st id ∧ allocated st1 id
  ∧ _nextSessionId st1 = id + 1
  ∧ (title s, venue s, startTime s, endTime s) = (t, v, start, stop)
  ∧ theaterCompany s = msg_sender env
  ∧ isActive s = true
  ∧ voteCount s = 0 ∧ voters st1 id = ∅
  ∧ decryptionRequested s = false ∧ decryptionCompleted s = false
  ∧ (∀ d, decrypt (aggregate d s) = 0)
  ∧ authorizedFlag st1 id (msg_sender env) = true.
Proof.
  intros Hr. rewrite createSession_eq. case_bool_decide; [done|].
  intros [= <- <-]. cbn zeta.
  pose proof (reachable_fresh st Hr) as Hf.
  assert (¬ allocated st (_nextSessionId st)) as Hnew
    by (unfold allocated; lia).
  rewrite sessionAt_afterCreate, decide_True by done.
  rewrite (unallocated_zero st _ Hf Hnew).
  split; [done|]. split.
  { destruct Hf. unfold allocated, afterCreate; cbn [_nextSessionId]. lia. }
  split; [done|]. split; [done|]. split; [done|]. split; [done|].
  split; [done|]. split.
  { apply set_eq. intros a. rewrite elem_of_voters.
    unfold afterCreate; cbn [_hasVoted]. split; [|set_solver].
    intros Hin. exfalso. apply Hnew.
    apply (reachable_flagged st Hr _ a). by left. }
  split; [done|]. split; [done|]. split; [by intros []|].
  unfold authorizedFlag, afterCreate; cbn [_authorizedTheaters].
  apply bool_decide_eq_true_2. set_solver.
Qed.

Lemma createSession_opens_a_session_witness :
  ∃ st1,
    createSession "Macbeth" "Cellar" 2000 5000 (mkEnv bob 1500)
                  (run initialState threeVotes) = Ok (1, st1)
    ∧ voteCount (sessionAt st1 1) = 0
    ∧ theaterCompany (sessionAt st1 1) = bob.
Proof.
  assert (createSession "Macbeth" "Cellar" 2000 5000 (mkEnv bob 1500)
            (run initialState threeVotes)
          = Ok (1, afterCreate "Macbeth" "Cellar" 2000 5000 bob
                     (run initialState threeVotes))) as Hc.
  { rewrite createSession_eq.
    assert (_nextSessionId (run initialState threeVotes) = 1) as ->
      by (vm_compute; reflexivity).
    reflexivity. }
  eexists. split; [exact Hc|].
  destruct (createSession_opens_a_session _ _ _ _ _ _ _ _
              (ex_intro _ threeVotes eq_refl) Hc)
    as (_ & _ & _ & _ & Hwho & _ & Hcount & _).
  split; [exact Hcount|exact Hwho].
Defined.

(** ** The session list *)









(** ** Sessions with an empty window *)

Lemma voteCount_empty_window_applyTx st tx id :
  allocated st id →
  endTime (sessionAt st id) < startTime (sessionAt st id) →
  voteCount (sessionAt (applyTx st tx) id) = voteCount (sessionAt st id).
Proof.
  unfold allocated. intros Ha Hempty.
  tx_cases tx; after_reads; case_ids; try done; lia.
Qed.

Lemma voteCount_empty_window_run st txs id :
  allocated st id →
  endTime (sessionAt st id) < startTime (sessionAt st id) →
  voteCount (sessionAt (run st txs) id) = voteCount (sessionAt st id).
Proof.
  revert st. induction txs as [|tx txs IH]; intros st Ha Hempty; [done|].
  cbn [run fold_left]. fold (run (applyTx st tx) txs).
  destruct (metadata_applyTx st tx id Ha) as (Hs & He & _).
  rewrite IH.
  - by apply voteCount_empty_window_applyTx.
  - by apply allocated_applyTx.
  - by rewrite Hs, He.
Qed.

(** X16: [createSession] does not compare the two times, and a session
    created with [endTime] before [startTime] is dead: whatever happens, no
    vote on it is ever accepted, its vote count stays zero, and its
    decryption can never be requested. *)
Theorem empty_window_session_is_dead t v start stop env st id st1 :
  fresh st → stop < start →
  createSession t v start stop env st = Ok (id, st1) →
  ∀ txs env',
    let st2 := run st1 txs in
    voteCount (sessionAt st2 id) = 0
    ∧ (∀ i1 p1 i2 p2 i3 p3 i4 p4 h st3,
         exec (submitVote id i1 p1 i2 p2 i3 p3 i4 p4 h) env' st2 ≠ Ok st3)
    ∧ (∀ st3, exec (requestDecryption id) env' st2 ≠ Ok st3).
Proof.
  intros Hf Hempty. rewrite createSession_eq.
  case_bool_decide; [done|]. intros [= <- <-] txs env'. cbn zeta.
  set (st1 := afterCreate t v start stop (msg_sender env) st).
  assert (allocated st1 (_nextSessionId st)) as Ha.
  { destruct Hf. unfold allocated, st1, afterCreate; cbn [_nextSessionId]. lia. }
  assert (sessionAt st1 (_nextSessionId st) =
          withAggregates (asEuint16 0) (asEuint16 0) (asEuint16 0) (asEuint16 0)
            (withIsActive true
               (withMetadata t v start stop (msg_sender env) zeroSession)))
    as Hs1.
  { unfold st1. rewrite sessionAt_afterCreate, decide_True by done.
    rewrite (unallocated_zero st); [done|done|]. unfold allocated. lia. }
  assert (voteCount (sessionAt (run st1 txs) (_nextSessionId st)) = 0) as Hc.
  { rewrite voteCount_empty_window_run; [by rewrite Hs1|done|by rewrite Hs1]. }
  pose proof (existing_run st1 txs (_nextSessionId st)) as Hmeta.
  split; [done|]. split.
  - intros i1 p1 i2 p2 i3 p3 i4 p4 h st3 Hok.
    apply submitVote_Ok in Hok as (Hex & _ & Hwin & _). cbn zeta in Hwin.
    assert (fresh st1) as Hf1.
    { replace st1 with (applyTx st (mkTx env (CreateSession t v start stop)));
        [by apply fresh_applyTx|].
      unfold applyTx. rewrite dispatch_eq. cbn [tx_call tx_env].
      by rewrite bool_decide_eq_false_2. }
    destruct (decide (start = 0)) as [->|Hstart].
    + destruct (metadata_run st1 txs _ Ha) as [Hst _].
      rewrite Hs1 in Hst. by cbn in Hst.
    + destruct Hmeta as (Hst & Hen & _); [done|by rewrite Hs1|].
      rewrite Hs1 in Hst, Hen. cbn in Hst, Hen. lia.
  - intros st3 Hok.
    apply requestDecryption_Ok in Hok as (_ & _ & _ & Hmin & _).
    cbn zeta in Hmin. unfold MIN_VOTES_FOR_DECRYPTION in Hmin. lia.
Qed.

Lemma empty_window_session_is_dead_witness :
  voteCount (sessionAt (run (afterCreate "Macbeth" "Cellar" 5000 2000 bob
                               (run initialState threeVotes))
                            afterBob) 1) = 0.
Proof.
  assert (createSession "Macbeth" "Cellar" 5000 2000 (mkEnv bob 1500)
            (run initialState threeVotes)
          = Ok (1, afterCreate "Macbeth" "Cellar" 5000 2000 bob
                     (run initialState threeVotes))) as Hc.
  { rewrite createSession_eq.
    assert (_nextSessionId (run initialState threeVotes) = 1) as ->
      by (vm_compute; reflexivity).
    reflexivity. }
  assert (2000 < 5000) as Hlt by lia.
  exact (proj1 (empty_window_session_is_dead _ _ _ _ _ _ _ _
                  (fresh_run initialState threeVotes fresh_initial) Hlt Hc
                  afterBob (mkEnv alice 1500))).
Defined.
